(** * bench.py: the request worker, the admission gate and the aggregator

    A shallow embedding of [src/bench.py] (the vLLM benchmark client) and the
    properties of its streaming measurement pipeline.

    Modelling conventions.
    - Python values that come out of [json.loads] are the inductive [pyval];
      a JSON object is an association list read by first match.
    - A Python [str] is a Rocq [string] whose characters are read as code
      points below 256; [len] is [String.length].
    - Python [float]s (clock readings, durations, rates) are exact
      rationals [Q]: rounding is not modelled.  Numbers are compared with
      [Qeq] where two computations may produce different fractions.
    - [json.loads] is a library function: the worker takes it as the
      argument [loads], [None] standing for [json.JSONDecodeError].
    - An exception ([exn]) is an instance of [Exception], what the
      [except Exception] of the worker catches; task cancellation and
      interrupts are not modelled.
    - The server and the clock are a script ([world]): every await point
      comes back at a clock reading, with a value or with an exception;
      [time.perf_counter()] reads the clock of the latest await. *)

From Stdlib Require Import ZArith QArith String Ascii List Bool Lia.
From Stdlib Require Import Permutation Sorted DecimalString Lqa.
Import ListNotations.

Local Open Scope string_scope.
Local Open Scope Z_scope.

(* ------------------------------------------------------------------ *)
(** ** Python values and exceptions *)

#[warnings="-register-all"]
Inductive pyval : Type :=
| PNone
| PBool (b : bool)
| PInt (z : Z)
| PFloat (q : Q)
| PStr (s : string)
| PList (l : list pyval)
| PDict (kv : list (string * pyval)).

(** An instance of [Exception]: its class name and [str(e)]. *)
Record exn : Type := Exn { exn_class : string; exn_str : string }.

(** Computations that may raise. *)
Definition raising (A : Type) : Type := (exn + A)%type.

Definition bind {A B : Type} (c : raising A) (k : A -> raising B) : raising B :=
  match c with
  | inl e => inl e
  | inr a => k a
  end.

Notation "x <- c ;; k" := (bind c (fun x => k))
  (at level 61, c at next level, right associativity).

Definition dq : string := String (ascii_of_nat 34) "".

Definition type_name (v : pyval) : string :=
  match v with
  | PNone => "NoneType"
  | PBool _ => "bool"
  | PInt _ => "int"
  | PFloat _ => "float"
  | PStr _ => "str"
  | PList _ => "list"
  | PDict _ => "dict"
  end.

(** [bool(v)]. *)
Definition truthy (v : pyval) : bool :=
  match v with
  | PNone => false
  | PBool b => b
  | PInt z => negb (z =? 0)
  | PFloat q => negb (Qeq_bool q 0)
  | PStr s => negb (s =? "")%string
  | PList l => match l with [] => false | _ => true end
  | PDict kv => match kv with [] => false | _ => true end
  end.

(** [a or b]. *)
Definition py_or (a b : pyval) : pyval := if truthy a then a else b.

Fixpoint lookup (key : string) (kv : list (string * pyval)) : option pyval :=
  match kv with
  | [] => None
  | (k, v) :: rest => if (k =? key)%string then Some v else lookup key rest
  end.

(** [v.get(key, default)]: only a dict has the method. *)
Definition py_get (v : pyval) (key : string) (default : pyval) : raising pyval :=
  match v with
  | PDict kv =>
      inr (match lookup key kv with Some x => x | None => default end)
  | _ =>
      inl (Exn "AttributeError"
             ("'" ++ type_name v ++ "' object has no attribute 'get'"))
  end.

(** [v[0]]. A dict decoded from JSON has string keys only, so key [0] is
    missing. *)
Definition py_item0 (v : pyval) : raising pyval :=
  match v with
  | PList [] => inl (Exn "IndexError" "list index out of range")
  | PList (x :: _) => inr x
  | PStr EmptyString => inl (Exn "IndexError" "string index out of range")
  | PStr (String c _) => inr (PStr (String c ""))
  | PDict _ => inl (Exn "KeyError" "0")
  | _ =>
      inl (Exn "TypeError" ("'" ++ type_name v ++ "' object is not subscriptable"))
  end.

(** [text + v] for a [str] on the left. *)
Definition py_concat (text : string) (v : pyval) : raising string :=
  match v with
  | PStr s => inr (text ++ s)
  | _ =>
      inl (Exn "TypeError"
             ("can only concatenate str (not " ++ dq ++ type_name v ++ dq
                ++ ") to str"))
  end.

(** The number a Python numeric value denotes ([bool] is an [int]). *)
Definition num_of (v : pyval) : option Q :=
  match v with
  | PBool b => Some (if b then 1%Q else 0%Q)
  | PInt z => Some (inject_Z z)
  | PFloat q => Some q
  | _ => None
  end.

(** [v / t] for a [float] [t]; true division. *)
Definition py_truediv (v : pyval) (t : Q) : raising Q :=
  match num_of v with
  | Some q =>
      if Qeq_bool t 0
      then inl (Exn "ZeroDivisionError" "float division by zero")
      else inr (q / t)%Q
  | None =>
      inl (Exn "TypeError"
             ("unsupported operand type(s) for /: '" ++ type_name v
                ++ "' and 'float'"))
  end.

(** [a + v], as [sum] uses it: the accumulator [a] is a number. *)
Definition py_add (a v : pyval) : raising pyval :=
  match a, v with
  | PInt x, PInt y => inr (PInt (x + y))
  | PInt x, PBool b => inr (PInt (x + (if b then 1 else 0)))
  | PInt x, PFloat y => inr (PFloat (inject_Z x + y))
  | PFloat x, PInt y => inr (PFloat (x + inject_Z y))
  | PFloat x, PBool b => inr (PFloat (x + (if b then 1 else 0)))
  | PFloat x, PFloat y => inr (PFloat (x + y))
  | _, _ =>
      inl (Exn "TypeError"
             ("unsupported operand type(s) for +: '" ++ type_name a
                ++ "' and '" ++ type_name v ++ "'"))
  end.

(** [sum(vs)], started at the int [0]. *)
Fixpoint py_sum_from (acc : pyval) (vs : list pyval) : raising pyval :=
  match vs with
  | [] => inr acc
  | v :: rest => acc' <- py_add acc v ;; py_sum_from acc' rest
  end.

Definition py_sum (vs : list pyval) : raising pyval := py_sum_from (PInt 0) vs.

(* ------------------------------------------------------------------ *)
(** ** Strings *)

(** [str.isspace] on code points below 256. *)
Definition is_space (c : ascii) : bool :=
  let n := nat_of_ascii c in
  ((9 <=? n) && (n <=? 13) || (28 <=? n) && (n <=? 32)
   || (n =? 133) || (n =? 160))%nat.

Fixpoint lstrip (s : string) : string :=
  match s with
  | EmptyString => EmptyString
  | String c rest => if is_space c then lstrip rest else s
  end.

Fixpoint rstrip (s : string) : string :=
  match s with
  | EmptyString => EmptyString
  | String c rest =>
      match rstrip rest with
      | EmptyString => if is_space c then EmptyString else String c EmptyString
      | kept => String c kept
      end
  end.

(** [s.strip()]. *)
Definition strip (s : string) : string := lstrip (rstrip s).

(** [s.startswith(p)]. *)
Definition startswith (s p : string) : bool := String.prefix p s.

(** [s[n:]]. *)
Fixpoint slice_from (n : nat) (s : string) : string :=
  match n, s with
  | O, _ => s
  | S n', String _ rest => slice_from n' rest
  | S _, EmptyString => EmptyString
  end.

(** [str(z)] for an int. *)
Definition str_of_int (z : Z) : string := NilZero.string_of_int (Z.to_int z).

Definition Qlt_bool (a b : Q) : bool := negb (Qle_bool b a).

(* ------------------------------------------------------------------ *)
(** ** Result collection *)

Record RequestResult : Type := mkResult {
  prompt : string;
  status : string;
  ttft_ms : Q;
  total_time_s : Q;
  prompt_tokens : pyval;
  completion_tokens : pyval;
  tokens_per_sec : Q;
  error : string
}.

(** [RequestResult(prompt=prompt)]: the dataclass defaults. *)
Definition new_result (p : string) : RequestResult :=
  {| prompt := p; status := "ok"; ttft_ms := 0%Q; total_time_s := 0%Q;
     prompt_tokens := PInt 0; completion_tokens := PInt 0;
     tokens_per_sec := 0%Q; error := "" |}.

Definition set_status (x : string) (r : RequestResult) : RequestResult :=
  {| prompt := prompt r; status := x; ttft_ms := ttft_ms r;
     total_time_s := total_time_s r; prompt_tokens := prompt_tokens r;
     completion_tokens := completion_tokens r;
     tokens_per_sec := tokens_per_sec r; error := error r |}.

Definition set_error (x : string) (r : RequestResult) : RequestResult :=
  {| prompt := prompt r; status := status r; ttft_ms := ttft_ms r;
     total_time_s := total_time_s r; prompt_tokens := prompt_tokens r;
     completion_tokens := completion_tokens r;
     tokens_per_sec := tokens_per_sec r; error := x |}.

Definition set_total_time_s (x : Q) (r : RequestResult) : RequestResult :=
  {| prompt := prompt r; status := status r; ttft_ms := ttft_ms r;
     total_time_s := x; prompt_tokens := prompt_tokens r;
     completion_tokens := completion_tokens r;
     tokens_per_sec := tokens_per_sec r; error := error r |}.

Definition set_ttft_ms (x : Q) (r : RequestResult) : RequestResult :=
  {| prompt := prompt r; status := status r; ttft_ms := x;
     total_time_s := total_time_s r; prompt_tokens := prompt_tokens r;
     completion_tokens := completion_tokens r;
     tokens_per_sec := tokens_per_sec r; error := error r |}.

Definition set_prompt_tokens (x : pyval) (r : RequestResult) : RequestResult :=
  {| prompt := prompt r; status := status r; ttft_ms := ttft_ms r;
     total_time_s := total_time_s r; prompt_tokens := x;
     completion_tokens := completion_tokens r;
     tokens_per_sec := tokens_per_sec r; error := error r |}.

Definition set_completion_tokens (x : pyval) (r : RequestResult) : RequestResult :=
  {| prompt := prompt r; status := status r; ttft_ms := ttft_ms r;
     total_time_s := total_time_s r; prompt_tokens := prompt_tokens r;
     completion_tokens := x;
     tokens_per_sec := tokens_per_sec r; error := error r |}.

Definition set_tokens_per_sec (x : Q) (r : RequestResult) : RequestResult :=
  {| prompt := prompt r; status := status r; ttft_ms := ttft_ms r;
     total_time_s := total_time_s r; prompt_tokens := prompt_tokens r;
     completion_tokens := completion_tokens r;
     tokens_per_sec := x; error := error r |}.

(* ------------------------------------------------------------------ *)
(** ** The server and the clock *)

(** What an [await] comes back with, and the clock reading when it does. *)
Inductive awaited (A : Type) : Type :=
| Ready (now : Q) (a : A)
| Raises (now : Q) (e : exn).
Arguments Ready {A} now a.
Arguments Raises {A} now e.

(** How the iteration over [resp.content] ends: the body is exhausted, or
    the read raises (timeout, connection reset). *)
Inductive ending : Type :=
| Eof (now : Q)
| Broken (now : Q) (e : exn).

(** The response of one POST.  [resp_content] are the lines of the body
    with their arrival times, each already decoded with
    [errors="replace"] (which cannot fail). *)
Record response : Type := mkResponse {
  resp_status : Z;
  resp_text : awaited string;
  resp_content : list (Q * string);
  resp_end : ending;
  resp_json : awaited pyval
}.

(** One request as the worker lives it: the clock at dispatch and the
    outcome of [session.post]. *)
Record world : Type := mkWorld {
  t0 : Q;
  post : awaited response
}.

(* ------------------------------------------------------------------ *)
(** ** Worker *)

(** The locals of the streaming loop. *)
Record scan : Type := mkScan {
  completion_text : string;
  last_chunk : option pyval;
  first_token_time : option Q
}.

Definition scan0 : scan :=
  {| completion_text := ""; last_chunk := None; first_token_time := None |}.

Inductive flow : Type :=
| Continue (s : scan)
| Break (s : scan).

(** Lines 141-142: the content fragment of a decoded chunk. *)
Definition token_text_of (chunk : pyval) : raising pyval :=
  choices <- py_get chunk "choices" (PList [PDict []]) ;;
  first <- py_item0 choices ;;
  delta <- py_get first "delta" (PDict []) ;;
  content <- py_get delta "content" PNone ;;
  inr (py_or content (PStr "")).

(** The body of the [async for] for one line arrived at clock [now]. *)
Definition on_line (loads : string -> option pyval) (now : Q) (raw_line : string)
    (s : scan) : raising flow :=
  let line := strip raw_line in
  if negb (startswith line "data:") then inr (Continue s)
  else
    let payload := strip (slice_from (String.length "data:") line) in
    if (payload =? "[DONE]")%string then inr (Break s)
    else
      match loads payload with
      | None => inr (Continue s)
      | Some chunk =>
          token_text <- token_text_of chunk ;;
          let ftt :=
            match first_token_time s with
            | None => if truthy token_text then Some now else None
            | Some t => Some t
            end in
          text <- py_concat (completion_text s) token_text ;;
          inr (Continue {| completion_text := text;
                           last_chunk := Some chunk;
                           first_token_time := ftt |})
      end.

(** The whole [async for]: the locals at the exit of the loop and the clock
    there, or the exception and the clock when it was raised. *)
Fixpoint consume (loads : string -> option pyval) (lines : list (Q * string))
    (fin : ending) (s : scan) : (exn * Q) + (scan * Q) :=
  match lines with
  | [] =>
      match fin with
      | Eof now => inr (s, now)
      | Broken now e => inl (e, now)
      end
  | (now, raw_line) :: rest =>
      match on_line loads now raw_line s with
      | inl e => inl (e, now)
      | inr (Break s') => inr (s', now)
      | inr (Continue s') => consume loads rest fin s'
      end
  end.

(** Lines 153-159: the usage of the last chunk. *)
Definition apply_usage (s : scan) (result : RequestResult)
    : RequestResult * option exn :=
  match last_chunk s with
  | None => (result, None)
  | Some chunk =>
      if truthy chunk then
        match py_get chunk "usage" PNone with
        | inl e => (result, Some e)
        | inr u =>
            let usage := py_or u (PDict []) in
            match py_get usage "completion_tokens" PNone with
            | inl e => (result, Some e)
            | inr c =>
                let result1 :=
                  if truthy c then set_completion_tokens c result else result in
                match py_get usage "prompt_tokens" PNone with
                | inl e => (result1, Some e)
                | inr p =>
                    (if truthy p then set_prompt_tokens p result1 else result1,
                     None)
                end
            end
        end
      else (result, None)
  end.

(** Lines 147-151: the elapsed time, the rough token count (chars / 4)
    and the time to the first token. *)
Definition measure (w : world) (s : scan) (now : Q) (result : RequestResult)
    : RequestResult :=
  let result := set_total_time_s (now - t0 w)%Q result in
  let result :=
    set_completion_tokens
      (PInt (Z.max 1 (Z.of_nat (String.length (completion_text s)) / 4)))
      result in
  match first_token_time s with
  | Some ft => set_ttft_ms ((ft - t0 w) * 1000)%Q result
  | None => result
  end.

(** Lines 167-168. *)
Definition rate (result : RequestResult) : RequestResult * option exn :=
  if truthy (completion_tokens result) && Qlt_bool 0 (total_time_s result) then
    match py_truediv (completion_tokens result) (total_time_s result) with
    | inl e => (result, Some e)
    | inr tps => (set_tokens_per_sec tps result, None)
    end
  else (result, None).

(** How the [try] block is left: by [return] or by its end, or by an
    exception; [result] is the object as mutated so far. *)
Inductive attempt : Type :=
| Returned (result : RequestResult)
| Raised (result : RequestResult) (e : exn) (now : Q).

Definition leave (now : Q) (o : RequestResult * option exn) : attempt :=
  match o with
  | (result, None) => Returned result
  | (result, Some e) => Raised result e now
  end.

(** Lines 120-168, the [try] block. *)
Definition try_block (loads : string -> option pyval) (w : world)
    (stream : bool) (result : RequestResult) : attempt :=
  match post w with
  | Raises now e => Raised result e now
  | Ready now resp =>
      if negb (resp_status resp =? 200) then
        let result := set_status "error" result in
        match resp_text resp with
        | Raises now e => Raised result e now
        | Ready now text =>
            let result :=
              set_error ("HTTP " ++ str_of_int (resp_status resp) ++ ": " ++ text)
                result in
            Returned (set_total_time_s (now - t0 w)%Q result)
        end
      else if stream then
        match consume loads (resp_content resp) (resp_end resp) scan0 with
        | inl (e, now) => Raised result e now
        | inr (s, now) =>
            match apply_usage s (measure w s now result) with
            | (result, Some e) => Raised result e now
            | (result, None) => leave now (rate result)
            end
        end
      else
        match resp_json resp with
        | Raises now e => Raised result e now
        | Ready now data =>
            let result := set_total_time_s (now - t0 w)%Q result in
            match py_get data "usage" (PDict []) with
            | inl e => Raised result e now
            | inr usage =>
                match py_get usage "prompt_tokens" (PInt 0) with
                | inl e => Raised result e now
                | inr p =>
                    let result := set_prompt_tokens p result in
                    match py_get usage "completion_tokens" (PInt 0) with
                    | inl e => Raised result e now
                    | inr c => leave now (rate (set_completion_tokens c result))
                    end
                end
            end
        end
  end.

(** [send_request]; the session, URL, model name, [max_tokens] and
    [temperature] only shape the request that is sent, the reply is in
    [w]. *)
Definition send_request (loads : string -> option pyval) (w : world)
    (prompt : string) (stream : bool) : RequestResult :=
  match try_block loads w stream (new_result prompt) with
  | Returned result => result
  | Raised result e now =>
      set_total_time_s (now - t0 w)%Q
        (set_error (exn_str e) (set_status "error" result))
  end.

(* ------------------------------------------------------------------ *)
(** ** Vocabulary for the stream *)

(** The payload of a line of the body, when it is a [data:] line. *)
Definition payload_of (raw_line : string) : option string :=
  let line := strip raw_line in
  if startswith line "data:"
  then Some (strip (slice_from (String.length "data:") line))
  else None.

(** The chunks the loop decodes, in order: the payloads of the [data:]
    lines before the sentinel that [loads] accepts. *)
Fixpoint events (loads : string -> option pyval) (lines : list (Q * string))
    : list pyval :=
  match lines with
  | [] => []
  | (_, raw_line) :: rest =>
      match payload_of raw_line with
      | None => events loads rest
      | Some payload =>
          if (payload =? "[DONE]")%string then []
          else
            match loads payload with
            | None => events loads rest
            | Some chunk => chunk :: events loads rest
            end
      end
  end.

(** The last chunk of a sequence, [d] when there is none. *)
Definition last_of (evs : list pyval) (d : option pyval) : option pyval :=
  fold_left (fun _ chunk => Some chunk) evs d.

(** The count a chunk reports under [usage], for [key] one of
    [completion_tokens] and [prompt_tokens]. *)
Definition reported (key : string) (chunk : pyval) : option pyval :=
  match chunk with
  | PDict kv =>
      match lookup "usage" kv with
      | Some (PDict u) => lookup key u
      | _ => None
      end
  | _ => None
  end.

(** The chunk has a [usage] entry. *)
Definition has_usage (chunk : pyval) : bool :=
  match chunk with
  | PDict kv => match lookup "usage" kv with Some _ => true | None => false end
  | _ => false
  end.

(** The content delta of a chunk, and the concatenation of the deltas of a
    sequence of chunks. *)
Definition delta_of (chunk : pyval) : string :=
  match token_text_of chunk with
  | inr (PStr s) => s
  | _ => ""
  end.

Definition deltas (evs : list pyval) : string :=
  fold_right (fun chunk acc => delta_of chunk ++ acc) "" evs.

(** A response with other lines in its body. *)
Definition with_content (lines : list (Q * string)) (resp : response) : response :=
  {| resp_status := resp_status resp; resp_text := resp_text resp;
     resp_content := lines; resp_end := resp_end resp;
     resp_json := resp_json resp |}.

(** A numeric value that is at least one. *)
Definition at_least_one (v : pyval) : Prop :=
  exists q, num_of v = Some q /\ (1 <= q)%Q.

(* ------------------------------------------------------------------ *)
(** ** Aggregation (lines 274-288 of [run_bench]) *)

(** [sum(xs)] over floats. *)
Definition fsum (xs : list Q) : Q := fold_left Qplus xs 0%Q.

(** [x / n] for a float and an int. *)
Definition fdiv_int (x : Q) (n : Z) : raising Q :=
  if n =? 0 then inl (Exn "ZeroDivisionError" "float division by zero")
  else inr (x / inject_Z n)%Q.

(** [sorted(xs)]: the stable ascending sort. *)
Fixpoint insert_sorted (x : Q) (l : list Q) : list Q :=
  match l with
  | [] => [x]
  | y :: rest => if Qle_bool x y then x :: l else y :: insert_sorted x rest
  end.

Fixpoint sorted (xs : list Q) : list Q :=
  match xs with
  | [] => []
  | x :: rest => insert_sorted x (sorted rest)
  end.

(** [xs[i]]. *)
Definition py_item (xs : list Q) (i : nat) : raising Q :=
  match nth_error xs i with
  | Some x => inr x
  | None => inl (Exn "IndexError" "list index out of range")
  end.

Fixpoint max_from (m : Q) (xs : list Q) : Q :=
  match xs with
  | [] => m
  | x :: rest => max_from (if Qlt_bool m x then x else m) rest
  end.

Fixpoint min_from (m : Q) (xs : list Q) : Q :=
  match xs with
  | [] => m
  | x :: rest => min_from (if Qlt_bool x m then x else m) rest
  end.

(** [max(xs)] and [min(xs)]. *)
Definition py_max (xs : list Q) : raising Q :=
  match xs with
  | [] => inl (Exn "ValueError" "max() arg is an empty sequence")
  | x :: rest => inr (max_from x rest)
  end.

Definition py_min (xs : list Q) : raising Q :=
  match xs with
  | [] => inl (Exn "ValueError" "min() arg is an empty sequence")
  | x :: rest => inr (min_from x rest)
  end.

Definition is_ok (r : RequestResult) : bool := (status r =? "ok")%string.

(** [bool(x)] for a float. *)
Definition nonzero (x : Q) : bool := negb (Qeq_bool x 0).

Record BatchSummary : Type := mkSummary {
  n_ok : nat;
  errs : Z;
  total_comp : pyval;
  total_prompt : pyval;
  avg_tps : Q;
  aggregate_tps : Q;
  avg_ttft : Q;
  p50 : Q;
  fastest : Q;
  slowest : Q
}.

(** What the tail of [run_bench] does: it prints "All requests failed."
    and returns, or it computes the statistics it then prints. *)
Inductive report : Type :=
| AllFailed
| Statistics (s : BatchSummary).

(** Lines 281-288: the statistics over the ok results. *)
Definition statistics (ok : list RequestResult) (errs : Z) (wall : Q)
    : raising report :=
  total_comp <- py_sum (map completion_tokens ok) ;;
  total_prompt <- py_sum (map prompt_tokens ok) ;;
  avg_tps <- fdiv_int (fsum (map tokens_per_sec ok)) (Z.of_nat (length ok)) ;;
  aggregate_tps <-
    (if nonzero wall then py_truediv total_comp wall else inr 0%Q) ;;
  avg_ttft <-
    fdiv_int (fsum (filter nonzero (map ttft_ms ok)))
      (Z.max 1 (Z.of_nat (length (filter nonzero (map ttft_ms ok))))) ;;
  p50 <- py_item (sorted (map tokens_per_sec ok)) (Nat.div (length ok) 2) ;;
  fastest <- py_max (map tokens_per_sec ok) ;;
  slowest <- py_min (map tokens_per_sec ok) ;;
  inr (Statistics
         {| n_ok := length ok; errs := errs; total_comp := total_comp;
            total_prompt := total_prompt; avg_tps := avg_tps;
            aggregate_tps := aggregate_tps; avg_ttft := avg_ttft;
            p50 := p50; fastest := fastest; slowest := slowest |}).

(** Lines 274-288. *)
Definition summarize (results : list RequestResult) (wall : Q) : raising report :=
  let ok := filter is_ok results in
  let errs := Z.of_nat (length results) - Z.of_nat (length ok) in
  match ok with
  | [] => inr AllFailed
  | _ :: _ => statistics ok errs wall
  end.

(** Results for the examples: an ok result with a rate, a failed one. *)
Definition ok_result (tps : Q) : RequestResult :=
  {| prompt := "p"; status := "ok"; ttft_ms := 0%Q; total_time_s := 1%Q;
     prompt_tokens := PInt 3; completion_tokens := PInt 8;
     tokens_per_sec := tps; error := "" |}.

Definition failed_result (msg : string) : RequestResult :=
  {| prompt := "p"; status := "error"; ttft_ms := 0%Q; total_time_s := 1%Q;
     prompt_tokens := PInt 0; completion_tokens := PInt 0;
     tokens_per_sec := 0%Q; error := msg |}.


(** The same Python number: the same [int], or [float]s of equal value. *)
Definition same_number (a b : pyval) : Prop :=
  match a, b with
  | PInt x, PInt y => x = y
  | PFloat x, PFloat y => (x == y)%Q
  | _, _ => False
  end.



(** The value is an [int], a [bool] or a [float]. *)
Definition is_number (v : pyval) : Prop := num_of v <> None.

(* ------------------------------------------------------------------ *)
(** ** The admission gate (lines 233-240 and 258-261 of [run_bench]) *)

(** One task [bounded(p)]: its prompt and the exchange its request will
    have with the server. *)
Record job : Type := mkJob {
  job_prompt : string;
  job_world : world
}.

(** The event loop between two steps.  [sem] is the counter of the
    semaphore; [waiting] are the tasks that have not passed
    [async with sem]; [in_flight] are the tasks inside it, awaiting
    [send_request]; [completed] are the results of finished tasks that
    [as_completed] has not handed over yet; [results] is the list the loop
    appends to. *)
Record pool : Type := mkPool {
  sem : Z;
  waiting : list job;
  in_flight : list job;
  completed : list RequestResult;
  results : list RequestResult
}.

(** What the event loop can do next: let the [i]-th waiting task take a
    slot, let the [i]-th task in flight finish its request (and leave
    [async with], giving the slot back), or resume the [for] loop with the
    next finished task. *)
Inductive event : Type :=
| Acquire (i : nat)
| Finish (i : nat)
| Yield.

Fixpoint remove_nth {A : Type} (i : nat) (l : list A) : list A :=
  match i, l with
  | _, [] => []
  | O, _ :: rest => rest
  | S i', x :: rest => x :: remove_nth i' rest
  end.

(** [bounded(p)] once it holds the slot. *)
Definition bounded (loads : string -> option pyval) (stream : bool) (j : job)
    : RequestResult :=
  send_request loads (job_world j) (job_prompt j) stream.

Definition step (loads : string -> option pyval) (stream : bool) (s : pool)
    (ev : event) : option pool :=
  match ev with
  | Acquire i =>
      match nth_error (waiting s) i with
      | Some j =>
          if 0 <? sem s then
            Some {| sem := sem s - 1;
                    waiting := remove_nth i (waiting s);
                    in_flight := in_flight s ++ [j];
                    completed := completed s;
                    results := results s |}
          else None
      | None => None
      end
  | Finish i =>
      match nth_error (in_flight s) i with
      | Some j =>
          Some {| sem := sem s + 1;
                  waiting := waiting s;
                  in_flight := remove_nth i (in_flight s);
                  completed := completed s ++ [bounded loads stream j];
                  results := results s |}
      | None => None
      end
  | Yield =>
      match completed s with
      | r :: rest =>
          Some {| sem := sem s;
                  waiting := waiting s;
                  in_flight := in_flight s;
                  completed := rest;
                  results := results s ++ [r] |}
      | [] => None
      end
  end.

Fixpoint run (loads : string -> option pyval) (stream : bool) (s : pool)
    (trace : list event) : option pool :=
  match trace with
  | [] => Some s
  | ev :: rest =>
      match step loads stream s ev with
      | Some s' => run loads stream s' rest
      | None => None
      end
  end.

(** [asyncio.Semaphore(parallel)] and the creation of the tasks. *)
Definition start (parallel : Z) (jobs : list job) : raising pool :=
  if parallel <? 0
  then inl (Exn "ValueError" "Semaphore initial value must be >= 0")
  else inr {| sem := parallel; waiting := jobs; in_flight := [];
              completed := []; results := [] |}.




(** What stays true of the pool: the counter of the semaphore and the
    tasks in flight add up to the cap, and every job is in exactly one
    place. *)
Definition invariant (loads : string -> option pyval) (stream : bool)
    (parallel : Z) (jobs : list job) (s : pool) : Prop :=
  0 <= sem s
  /\ sem s + Z.of_nat (length (in_flight s)) = parallel
  /\ Permutation
       (map (bounded loads stream) (waiting s)
          ++ map (bounded loads stream) (in_flight s)
          ++ completed s ++ results s)%list
       (map (bounded loads stream) jobs).

(** The steps a pool still has to take. *)
Definition remaining (s : pool) : nat :=
  3 * length (waiting s) + 2 * length (in_flight s) + length (completed s).

(* ------------------------------------------------------------------ *)
(** ** Sample exchanges *)

(** JSON text: the pieces are joined by a double quote. *)
Definition json_text (pieces : list string) : string := String.concat dq pieces.

Definition chunk_text (s : string) : string :=
  json_text ["{"; "choices"; ": [{"; "delta"; ": {"; "content"; ": "; s; "}}]}"].

Definition chunk_of (s : string) : pyval :=
  PDict [("choices", PList [PDict [("delta", PDict [("content", PStr s)])]])].

Definition usage_text (n : string) : string :=
  json_text ["{"; "usage"; ": {"; "completion_tokens"; ": " ++ n ++ "}}"].

Definition usage_of (n : Z) : pyval :=
  PDict [("usage", PDict [("completion_tokens", PInt n)])].

(** [json.loads] on the payloads of the sample streams. *)
Definition sample_loads (payload : string) : option pyval :=
  if (payload =? chunk_text "Hel")%string then Some (chunk_of "Hel")
  else if (payload =? chunk_text "lo")%string then Some (chunk_of "lo")
  else if (payload =? chunk_text "x")%string then Some (chunk_of "x")
  else if (payload =? chunk_text "seventeen letters")%string
       then Some (chunk_of "seventeen letters")
  else if (payload =? usage_text "5")%string then Some (usage_of 5)
  else if (payload =? usage_text "-1")%string then Some (usage_of (-1))
  else None.

Definition data (payload : string) : string := "data: " ++ payload.

Definition streamed (t : Q) (lines : list (Q * string)) (fin : ending) : world :=
  {| t0 := t;
     post := Ready t {| resp_status := 200;
                        resp_text := Ready t "";
                        resp_content := lines;
                        resp_end := fin;
                        resp_json := Ready t PNone |} |}.

(** "Hel", "lo", then the usage block, then the sentinel. *)
Definition hello_world : world :=
  streamed 10 [(11, data (chunk_text "Hel")); (12, data (chunk_text "lo"));
               (13, data (usage_text "5")); (14, data "[DONE]")]%Q (Eof 15).

(** The usage block comes first, content after it. *)
Definition usage_first_world : world :=
  streamed 10 [(11, data (usage_text "5")); (12, data (chunk_text "x"));
               (13, data "[DONE]")]%Q (Eof 14).

Definition seventeen_world : world :=
  streamed 0 [(1, data (chunk_text "seventeen letters"))]%Q (Eof 2).

Definition negative_usage_world : world :=
  streamed 0 [(1, data (chunk_text "x")); (2, data (usage_text "-1"))]%Q (Eof 3).

Definition overloaded_world : world :=
  {| t0 := 10%Q;
     post := Ready 11%Q {| resp_status := 500;
                           resp_text := Ready 12%Q "overloaded";
                           resp_content := [];
                           resp_end := Eof 12%Q;
                           resp_json := Ready 12%Q PNone |} |}.

Definition timeout_world : world :=
  {| t0 := 10%Q; post := Raises 130%Q (Exn "TimeoutError" "") |}.

(* ------------------------------------------------------------------ *)
(** ** Prompt pools and [pick_prompts] *)

Definition e_grave : string := String (ascii_of_nat 232) "".

Definition SMALL_PROMPTS : list string :=
  [ "Qual " ++ e_grave ++ " la capitale della Francia?";
    "What is 2 + 2?";
    "Name three primary colors.";
    "Who wrote Romeo and Juliet?";
    "What is the boiling point of water in Celsius?";
    "Translate 'hello' to Spanish.";
    "What planet is closest to the Sun?";
    "How many continents are there?";
    "What is the chemical symbol for gold?";
    "Name the largest ocean on Earth.";
    "What year did the Titanic sink?";
    "What is the square root of 144?";
    "Who painted the Mona Lisa?";
    "What is the currency of Japan?";
    "How many legs does a spider have?" ].

Definition MEDIUM_PROMPTS : list string :=
  [ "Explain the difference between TCP and UDP in simple terms.";
    "Write a short paragraph about the history of the Internet.";
    "Describe how a neural network learns, step by step.";
    "What are the main differences between Python and JavaScript?";
    "Summarize the plot of '1984' by George Orwell in a few sentences.";
    "Explain what a hash table is and why it is useful.";
    "Describe the water cycle in detail.";
    "What are the pros and cons of remote work?";
    "Explain the concept of recursion with a simple example.";
    "Describe the main causes of climate change." ].

Definition LARGE_PROMPTS : list string :=
  [ "Write a detailed tutorial on how to build a REST API with Python and Flask, including code examples.";
    "Explain the theory of relativity in depth, covering both special and general relativity with examples.";
    "Write a comprehensive comparison of SQL and NoSQL databases, including use cases, advantages, and disadvantages.";
    "Describe the complete lifecycle of a machine learning project from data collection to deployment.";
    "Write a detailed essay about the history and evolution of programming languages from the 1950s to today.";
    "Explain distributed systems concepts: CAP theorem, consensus algorithms, and partition tolerance with examples.";
    "Write a thorough guide to container orchestration with Kubernetes, covering pods, services, and deployments.";
    "Describe the architecture of a modern web application, from frontend to backend to infrastructure." ].

(** How [pick_prompts] fails: the dict of pools has no such key, or
    [random.choice] is given an empty sequence. *)
Inductive pick_error : Type :=
| KeyError (key : string)
| IndexError.

(** The dict literal of line 74, subscripted by [size]. *)
Definition pool_of (size : string) : pick_error + list string :=
  if (size =? "small")%string then inr SMALL_PROMPTS
  else if (size =? "medium")%string then inr MEDIUM_PROMPTS
  else if (size =? "large")%string then inr LARGE_PROMPTS
  else inl (KeyError size).

(** [random.choice(pool)], the generator having drawn [r]: the element at
    an index below [len(pool)]. *)
Definition random_choice (pool : list string) (r : nat) : option string :=
  nth_error pool (Nat.modulo r (length pool)).

(** The list comprehension of line 75, [draws] being the successive draws
    of the generator. *)
Fixpoint choose_each (pool : list string) (draws : nat -> nat) (i count : nat)
    : pick_error + list string :=
  match count with
  | O => inr []
  | S count' =>
      match random_choice pool (draws i) with
      | None => inl IndexError
      | Some p =>
          match choose_each pool draws (S i) count' with
          | inl e => inl e
          | inr rest => inr (p :: rest)
          end
      end
  end.

(** [pick_prompts(n, size)]; [range(n)] is empty for [n <= 0]. *)
Definition pick_prompts (draws : nat -> nat) (n : Z) (size : string)
    : pick_error + list string :=
  match pool_of size with
  | inl e => inl e
  | inr pool => choose_each pool draws 0 (Z.to_nat n)
  end.

(* ------------------------------------------------------------------ *)
(** ** The RAM monitor *)

Record RamMonitor : Type := mkMonitor {
  interval : Q;
  samples : list Q;
  _stop : bool;
  _total_gb : Q
}.

(** [1024 ** 3]. *)
Definition GIB : Z := 1024 ^ 3.

(** [RamMonitor(interval)]. *)
Definition new_monitor (interval : Q) : RamMonitor :=
  {| interval := interval; samples := []; _stop := false; _total_gb := 0%Q |}.

(** [start()]: nothing without psutil; [total] is what
    [psutil.virtual_memory().total] reads. *)
Definition monitor_start (has_psutil : bool) (total : Z) (m : RamMonitor)
    : RamMonitor :=
  if negb has_psutil then m
  else {| interval := interval m; samples := samples m; _stop := false;
          _total_gb := (inject_Z total / inject_Z GIB)%Q |}.

(** [stop()]. *)
Definition monitor_stop (m : RamMonitor) : RamMonitor :=
  {| interval := interval m; samples := samples m; _stop := true;
     _total_gb := _total_gb m |}.

(** One turn of the loop of [_run], [used] being what
    [psutil.virtual_memory().used] reads: [None] when the loop is left. *)
Definition monitor_poll (used : Z) (m : RamMonitor) : option RamMonitor :=
  if _stop m then None
  else Some {| interval := interval m;
               samples := (samples m ++ [(inject_Z used / inject_Z GIB)%Q])%list;
               _stop := _stop m; _total_gb := _total_gb m |}.

(** [xs[-1]]. *)
Definition py_last (xs : list Q) : raising Q :=
  match xs with
  | [] => inl (Exn "IndexError" "list index out of range")
  | x :: rest => inr (last rest x)
  end.

(** [summary()]: the dict, as the list of its items. *)
Definition monitor_summary (m : RamMonitor) : raising (list (string * Q)) :=
  match samples m with
  | [] => inr []
  | _ :: _ =>
      start_gb <- py_item (samples m) 0 ;;
      peak_gb <- py_max (samples m) ;;
      avg_gb <- fdiv_int (fsum (samples m)) (Z.of_nat (length (samples m))) ;;
      end_gb <- py_last (samples m) ;;
      inr [("total_gb", _total_gb m); ("start_gb", start_gb);
           ("peak_gb", peak_gb); ("avg_gb", avg_gb); ("end_gb", end_gb)]
  end.

(** [d[key]] on such a dict. *)
Fixpoint item_of (key : string) (d : list (string * Q)) : option Q :=
  match d with
  | [] => None
  | (k, v) :: rest => if (k =? key)%string then Some v else item_of key rest
  end.

(* ------------------------------------------------------------------ *)
(** ** The endpoint and the headers (lines 227-231 of [run_bench]) *)

(** [s.rstrip(c)] for one character [c]. *)
Fixpoint rstrip_char (c : ascii) (s : string) : string :=
  match s with
  | EmptyString => EmptyString
  | String x rest =>
      match rstrip_char c rest with
      | EmptyString => if Ascii.eqb x c then EmptyString else String x EmptyString
      | kept => String x kept
      end
  end.

(** The URL of line 227. *)
Definition endpoint (base_url : string) : string :=
  rstrip_char "/" base_url ++ "/v1/chat/completions".

(** The headers of lines 229-231. *)
Definition request_headers (api_key : string) : list (string * string) :=
  let headers := [("Content-Type", "application/json")] in
  if negb (api_key =? "")%string
  then (headers ++ [("Authorization", ("Bearer " ++ api_key)%string)])%list
  else headers.

(* ------------------------------------------------------------------ *)
(** ** More vocabulary *)

(** The arrival time of the first decoded chunk, before the sentinel, whose
    content delta is not empty. *)
Fixpoint first_content_time (loads : string -> option pyval)
    (lines : list (Q * string)) : option Q :=
  match lines with
  | [] => None
  | (now, raw_line) :: rest =>
      match payload_of raw_line with
      | None => first_content_time loads rest
      | Some payload =>
          if (payload =? "[DONE]")%string then None
          else
            match loads payload with
            | None => first_content_time loads rest
            | Some chunk =>
                if (delta_of chunk =? "")%string
                then first_content_time loads rest
                else Some now
            end
      end
  end.

(** The line lets the loop go on to the next line: it is not the sentinel
    and raises nothing. *)
Definition goes_on (loads : string -> option pyval) (line : Q * string) : bool :=
  match on_line loads (fst line) (snd line) scan0 with
  | inr (Continue _) => true
  | _ => false
  end.

(** A report with another count of errors. *)
Definition with_errs (f : Z -> Z) (o : raising report) : raising report :=
  match o with
  | inr (Statistics s) =>
      inr (Statistics
             {| n_ok := n_ok s; errs := f (errs s); total_comp := total_comp s;
                total_prompt := total_prompt s; avg_tps := avg_tps s;
                aggregate_tps := aggregate_tps s; avg_ttft := avg_ttft s;
                p50 := p50 s; fastest := fastest s; slowest := slowest s |})
  | other => other
  end.

(** Two results with the same fields but the token counts. *)
Definition same_but_counts (a b : RequestResult) : Prop :=
  prompt a = prompt b /\ status a = status b /\ error a = error b
  /\ ttft_ms a = ttft_ms b /\ total_time_s a = total_time_s b
  /\ tokens_per_sec a = tokens_per_sec b.

(** [d.get(key, 0)] once [key] is looked up. *)
Definition or_zero (o : option pyval) : pyval :=
  match o with Some v => v | None => PInt 0 end.

(** Every character of the string is white space. *)
Fixpoint all_space (s : string) : bool :=
  match s with
  | EmptyString => true
  | String c rest => is_space c && all_space rest
  end.

(** One list is the beginning of the other. *)
Definition is_prefix {A : Type} (l l' : list A) : Prop :=
  exists more, l' = (l ++ more)%list.

(** More sample exchanges: a final chunk as servers send it with
    [include_usage] (no choice, only the usage), a usage block whose
    [prompt_tokens] is a string, and a body that is not streamed. *)
Definition final_usage_text : string :=
  json_text ["{"; "choices"; ": [], "; "usage"; ": {"; "completion_tokens";
             ": 2}}"].

Definition final_usage_chunk : pyval :=
  PDict [("choices", PList []);
         ("usage", PDict [("completion_tokens", PInt 2)])].

Definition odd_usage_text : string :=
  json_text ["{"; "usage"; ": {"; "prompt_tokens"; ": "; "twelve"; "}}"].

Definition odd_usage_chunk : pyval :=
  PDict [("usage", PDict [("prompt_tokens", PStr "twelve")])].

Definition more_loads (payload : string) : option pyval :=
  if (payload =? final_usage_text)%string then Some final_usage_chunk
  else if (payload =? odd_usage_text)%string then Some odd_usage_chunk
  else sample_loads payload.

Definition final_usage_world : world :=
  streamed 10 [(11, data (chunk_text "Hel")); (12, ": keep-alive");
               (13, data final_usage_text); (14, data "[DONE]")]%Q (Eof 15).


Definition unstreamed (t : Q) (data : pyval) : world :=
  {| t0 := t;
     post := Ready t {| resp_status := 200;
                        resp_text := Ready t "";
                        resp_content := [];
                        resp_end := Eof t;
                        resp_json := Ready (t + 2)%Q data |} |}.

(* ================================================================== *)
(** * Properties of the worker *)

Lemma append_nil_r (s : string) : s ++ "" = s.
Proof. induction s as [|c s IH]; simpl; [reflexivity | now rewrite IH]. Qed.

Lemma append_assoc (a b c : string) : (a ++ b) ++ c = a ++ (b ++ c).
Proof. induction a as [|x a IH]; simpl; [reflexivity | now rewrite IH]. Qed.

Lemma last_of_In (evs : list pyval) :
  forall d chunk, last_of evs d = Some chunk ->
    In chunk evs \/ (evs = [] /\ d = Some chunk).
Proof.
  unfold last_of.
  induction evs as [|c evs IH]; simpl; intros d chunk H.
  - right. split; [reflexivity | exact H].
  - left. destruct (IH _ _ H) as [Hin | [-> Hd]].
    + right. exact Hin.
    + left. now inversion Hd.
Qed.

Section Stream.

Variable loads : string -> option pyval.

(** The loop body, by the kind of line. *)
Lemma on_line_cases (now : Q) (raw_line : string) (s : scan) :
  on_line loads now raw_line s =
    match payload_of raw_line with
    | None => inr (Continue s)
    | Some payload =>
        if (payload =? "[DONE]")%string then inr (Break s)
        else
          match loads payload with
          | None => inr (Continue s)
          | Some chunk =>
              token_text <- token_text_of chunk ;;
              text <- py_concat (completion_text s) token_text ;;
              inr (Continue
                     {| completion_text := text;
                        last_chunk := Some chunk;
                        first_token_time :=
                          match first_token_time s with
                          | None => if truthy token_text then Some now else None
                          | Some t => Some t
                          end |})
          end
    end.
Proof.
  unfold on_line, payload_of.
  destruct (startswith (strip raw_line) "data:"); reflexivity.
Qed.


(** What the loop has in its locals when it ends without an exception:
    the deltas of the decoded chunks, appended in order, and the last
    decoded chunk. *)
Lemma consume_events (fin : ending) (lines : list (Q * string)) :
  forall s0 s t,
    consume loads lines fin s0 = inr (s, t) ->
    completion_text s = completion_text s0 ++ deltas (events loads lines)
    /\ last_chunk s = last_of (events loads lines) (last_chunk s0).
Proof.
  induction lines as [|[now raw_line] rest IH]; intros s0 s t H; simpl in H.
  - destruct fin; inversion H; subst. simpl.
    now rewrite append_nil_r.
  - rewrite on_line_cases in H. simpl.
    destruct (payload_of raw_line) as [payload|]; [|exact (IH _ _ _ H)].
    destruct (payload =? "[DONE]")%string.
    { inversion H; subst. simpl. now rewrite append_nil_r. }
    destruct (loads payload) as [chunk|]; [|exact (IH _ _ _ H)].
    unfold bind in H.
    destruct (token_text_of chunk) as [e|tt] eqn:Htt; [discriminate|].
    destruct (py_concat (completion_text s0) tt) as [e|text] eqn:Hc;
      [discriminate|].
    apply IH in H. simpl in H. destruct H as [Htext Hlast].
    destruct tt; simpl in Hc; try discriminate.
    inversion Hc; subst text. split.
    + rewrite Htext. simpl. unfold delta_of. rewrite Htt.
      apply append_assoc.
    + exact Hlast.
Qed.


End Stream.

(** The usage of the last chunk, when it reports a count. *)
Lemma apply_usage_reported (s : scan) (result : RequestResult) (chunk : pyval) :
  last_chunk s = Some chunk ->
  (forall v, reported "completion_tokens" chunk = Some v -> truthy v = true ->
     completion_tokens (fst (apply_usage s result)) = v)
  /\ (forall v, reported "prompt_tokens" chunk = Some v -> truthy v = true ->
        prompt_tokens (fst (apply_usage s result)) = v).
Proof.
  intros Hlast. unfold apply_usage. rewrite Hlast.
  destruct chunk as [| | | | |?|kv]; try (split; intros v H; discriminate H).
  unfold reported.
  destruct (lookup "usage" kv) as [u|] eqn:Hu;
    [|split; intros v H; discriminate H].
  destruct u as [| | | | |?|ukv]; try (split; intros v H; discriminate H).
  assert (Hkv : truthy (PDict kv) = true).
  { destruct kv; [discriminate Hu | reflexivity]. }
  rewrite Hkv.
  assert (Hget : py_get (PDict kv) "usage" PNone = inr (PDict ukv)).
  { unfold py_get. now rewrite Hu. }
  rewrite Hget.
  assert (Hukv : forall key v, lookup key ukv = Some v ->
                   py_or (PDict ukv) (PDict []) = PDict ukv).
  { intros key v H. destruct ukv; [discriminate H | reflexivity]. }
  split; intros v Hv Ht; rewrite (Hukv _ _ Hv); unfold py_get.
  - rewrite Hv, Ht.
    destruct (lookup "prompt_tokens" ukv) as [p|]; simpl.
    + destruct (truthy p); reflexivity.
    + reflexivity.
  - rewrite Hv, Ht.
    destruct (lookup "completion_tokens" ukv) as [c|]; simpl.
    + destruct (truthy c); reflexivity.
    + reflexivity.
Qed.

(** The usage step keeps the estimate or installs a truthy count that the
    last chunk reports. *)
Lemma apply_usage_completion (s : scan) (result : RequestResult) :
  completion_tokens (fst (apply_usage s result)) = completion_tokens result
  \/ exists chunk c,
       last_chunk s = Some chunk
       /\ reported "completion_tokens" chunk = Some c
       /\ truthy c = true
       /\ completion_tokens (fst (apply_usage s result)) = c.
Proof.
  unfold apply_usage.
  destruct (last_chunk s) as [chunk|]; [|now left].
  destruct (truthy chunk); [|now left].
  destruct (py_get chunk "usage" PNone) as [e|u] eqn:Hget; [now left|].
  destruct chunk as [| | | | |?|kv]; try discriminate Hget.
  unfold py_get in Hget. injection Hget as Hget.
  unfold py_or. destruct (truthy u) eqn:Htu.
  2:{ left. reflexivity. }
  destruct u as [| | | | |?|ukv]; try (left; reflexivity).
  assert (Hu : lookup "usage" kv = Some (PDict ukv)).
  { destruct (lookup "usage" kv); [now subst | discriminate Hget]. }
  unfold py_get.
  destruct (lookup "completion_tokens" ukv) as [c|] eqn:Hc.
  2:{ left. simpl. destruct (lookup "prompt_tokens" ukv) as [p|]; simpl;
      [destruct (truthy p)|]; reflexivity. }
  destruct (truthy c) eqn:Htc.
  - right. exists (PDict kv), c. unfold reported. rewrite Hu, Hc.
    repeat split; try assumption.
    destruct (lookup "prompt_tokens" ukv) as [p|]; simpl;
      [destruct (truthy p)|]; reflexivity.
  - left. destruct (lookup "prompt_tokens" ukv) as [p|]; simpl;
      [destruct (truthy p)|]; reflexivity.
Qed.

Lemma apply_usage_without_usage (s : scan) (result : RequestResult) :
  (forall chunk, last_chunk s = Some chunk -> has_usage chunk = false) ->
  completion_tokens (fst (apply_usage s result)) = completion_tokens result.
Proof.
  intros H. destruct (apply_usage_completion s result) as [E | (chunk & c & Hl & Hr & _)].
  - exact E.
  - specialize (H _ Hl). unfold reported in Hr. unfold has_usage in H.
    destruct chunk; try discriminate.
    destruct (lookup "usage" kv); discriminate.
Qed.

(** The rate step and the handler touch neither token count. *)
Lemma rate_tokens (result : RequestResult) :
  completion_tokens (fst (rate result)) = completion_tokens result
  /\ prompt_tokens (fst (rate result)) = prompt_tokens result.
Proof.
  unfold rate.
  destruct (truthy (completion_tokens result) && Qlt_bool 0 (total_time_s result));
    [|now split].
  destruct (py_truediv _ _); now split.
Qed.

(** The streamed path once the loop has ended without an exception. *)
Lemma send_request_streamed (loads : string -> option pyval) (w : world)
    (p : string) (now : Q) (resp : response) (s : scan) (t : Q) :
  post w = Ready now resp ->
  resp_status resp = 200 ->
  consume loads (resp_content resp) (resp_end resp) scan0 = inr (s, t) ->
  let measured := measure w s t (new_result p) in
  completion_tokens (send_request loads w p true)
  = completion_tokens (fst (apply_usage s measured))
  /\ prompt_tokens (send_request loads w p true)
     = prompt_tokens (fst (apply_usage s measured)).
Proof.
  intros Hpost Hst Hc measured.
  unfold send_request, try_block. rewrite Hpost, Hst. simpl negb. cbv iota.
  rewrite Hc. fold measured.
  destruct (apply_usage s measured) as [r [e|]] eqn:Hu; simpl fst.
  - now split.
  - destruct (rate_tokens r) as [Hc' Hp'].
    unfold leave. destruct (rate r) as [r' [e|]]; simpl in *; now split.
Qed.

(** A streamed request that ends with status ok has consumed its body
    without an exception. *)
Lemma streamed_ok_consumed (loads : string -> option pyval) (w : world)
    (p : string) (now : Q) (resp : response) :
  post w = Ready now resp ->
  resp_status resp = 200 ->
  status (send_request loads w p true) = "ok" ->
  exists s t, consume loads (resp_content resp) (resp_end resp) scan0 = inr (s, t).
Proof.
  intros Hpost Hst Hok.
  destruct (consume loads (resp_content resp) (resp_end resp) scan0)
    as [[e t]|[s t]] eqn:Hc.
  - unfold send_request, try_block in Hok. rewrite Hpost, Hst in Hok.
    simpl negb in Hok. cbv iota in Hok. rewrite Hc in Hok. discriminate Hok.
  - now exists s, t.
Qed.


(** ** C1: the usage block *)

(** C1, as the claim states it, fails.  In [usage_first_world] the first
    event carries [usage.completion_tokens = 5] and a content chunk follows
    it: the returned count is not 5, it is the estimate from the one
    character of content. *)
Lemma usage_in_earlier_event_is_lost :
  ~ (forall chunk v,
       In chunk (events sample_loads
                   [(11, data (usage_text "5")); (12, data (chunk_text "x"));
                    (13, data "[DONE]")]%Q) ->
       reported "completion_tokens" chunk = Some v ->
       completion_tokens (send_request sample_loads usage_first_world "p" true) = v).
Proof.
  intros H.
  specialize (H (usage_of 5) (PInt 5)).
  assert (E : completion_tokens
                (send_request sample_loads usage_first_world "p" true) = PInt 1)
    by reflexivity.
  rewrite E in H.
  assert (PInt 1 = PInt 5) as Habs.
  { apply H; [left; reflexivity | reflexivity]. }
  discriminate Habs.
Qed.

(** C1, amended: when the body of a streamed response is consumed without
    an exception and the last chunk decoded before the end of the stream
    carries a usage block, a truthy (non-zero) [completion_tokens] of that
    block is the [completion_tokens] of the returned result, and a truthy
    [prompt_tokens] of that block is its [prompt_tokens]: the estimate from
    the characters is overwritten. *)
Theorem usage_of_last_chunk_overrides
    (loads : string -> option pyval) (w : world) (p : string)
    (now : Q) (resp : response) (s : scan) (t : Q) (chunk : pyval) :
  post w = Ready now resp ->
  resp_status resp = 200 ->
  consume loads (resp_content resp) (resp_end resp) scan0 = inr (s, t) ->
  last_of (events loads (resp_content resp)) None = Some chunk ->
  (forall v, reported "completion_tokens" chunk = Some v -> truthy v = true ->
     completion_tokens (send_request loads w p true) = v)
  /\ (forall v, reported "prompt_tokens" chunk = Some v -> truthy v = true ->
        prompt_tokens (send_request loads w p true) = v).
Proof.
  intros Hpost Hst Hc Hlast.
  destruct (send_request_streamed loads w p now resp s t Hpost Hst Hc) as [Ec Ep].
  destruct (consume_events loads _ _ _ _ _ Hc) as [_ Hl].
  simpl in Hl. rewrite Hlast in Hl.
  destruct (apply_usage_reported s (measure w s t (new_result p)) chunk Hl)
    as [Hcomp Hprompt].
  split; intros v Hv Ht.
  - rewrite Ec. now apply Hcomp.
  - rewrite Ep. now apply Hprompt.
Qed.

(** "Hel", "lo", then [{completion_tokens: 5}]: the count is 5. *)
Lemma usage_of_last_chunk_overrides_witness :
  last_of (events sample_loads (resp_content
     (with_content [(11, data (chunk_text "Hel")); (12, data (chunk_text "lo"));
                    (13, data (usage_text "5")); (14, data "[DONE]")]%Q
        (mkResponse 200 (Ready 10%Q "") [] (Eof 15%Q) (Ready 10%Q PNone)))))
    None = Some (usage_of 5)
  /\ completion_tokens (send_request sample_loads hello_world "p" true) = PInt 5.
Proof.
  split; [reflexivity|].
  refine (proj1 (usage_of_last_chunk_overrides sample_loads hello_world "p"
                   10%Q _ _ _ (usage_of 5) eq_refl eq_refl _ eq_refl)
            (PInt 5) eq_refl eq_refl).
  reflexivity.
Defined.

(** The time to the first token is taken at the arrival of "Hel", one
    second after the dispatch. *)
Example hello_ttft :
  (ttft_ms (send_request sample_loads hello_world "p" true) == 1000)%Q
  /\ (tokens_per_sec (send_request sample_loads hello_world "p" true) == 5 / 4)%Q.
Proof. split; reflexivity. Qed.

(** ** C2: the fallback estimate *)

(** C2: a streamed request that ends with status ok and whose decoded chunks
    carry no usage block has [completion_tokens = max(1, len(text) // 4)],
    [text] being the concatenation of the content deltas; 17 characters
    give 4. *)
Theorem fallback_estimate
    (loads : string -> option pyval) (w : world) (p : string)
    (now : Q) (resp : response) :
  post w = Ready now resp ->
  resp_status resp = 200 ->
  status (send_request loads w p true) = "ok" ->
  (forall chunk, In chunk (events loads (resp_content resp)) ->
     has_usage chunk = false) ->
  let text := deltas (events loads (resp_content resp)) in
  completion_tokens (send_request loads w p true)
  = PInt (Z.max 1 (Z.of_nat (String.length text) / 4))
  /\ (String.length text = 17%nat ->
      completion_tokens (send_request loads w p true) = PInt 4).
Proof.
  intros Hpost Hst Hok Hnone text.
  destruct (streamed_ok_consumed loads w p now resp Hpost Hst Hok) as (s & t & Hc).
  destruct (send_request_streamed loads w p now resp s t Hpost Hst Hc) as [Ec _].
  destruct (consume_events loads _ _ _ _ _ Hc) as [Htext Hl].
  simpl in Htext, Hl. fold text in Htext.
  assert (E : completion_tokens (send_request loads w p true)
              = PInt (Z.max 1 (Z.of_nat (String.length text) / 4))).
  { rewrite Ec, apply_usage_without_usage.
    - unfold measure. rewrite Htext.
      destruct (first_token_time s); reflexivity.
    - intros chunk Hchunk. rewrite Hl in Hchunk.
      destruct (last_of_In _ _ _ Hchunk) as [Hin | [_ Hd]];
        [now apply Hnone | discriminate Hd]. }
  split; [exact E|].
  intros H17. rewrite E, H17. reflexivity.
Qed.

Lemma fallback_estimate_witness :
  status (send_request sample_loads seventeen_world "p" true) = "ok"
  /\ String.length (deltas (events sample_loads
                      [(1, data (chunk_text "seventeen letters"))]%Q)) = 17%nat
  /\ completion_tokens (send_request sample_loads seventeen_world "p" true)
     = PInt 4.
Proof.
  split; [reflexivity|]. split; [reflexivity|].
  refine (proj2 (fallback_estimate sample_loads seventeen_world "p" 0%Q _
                   eq_refl eq_refl eq_refl _) eq_refl).
  intros chunk [<- | []]. reflexivity.
Defined.

(** ** C4: exceptions stay inside the worker *)



(** ** C5: a malformed chunk *)



(** ** C8: a response that is not 200 *)

(** C8: for a status other than 200 whose body text is read, the result is
    returned at once: status error, ["HTTP <status>: <body>"], the elapsed
    time, and every other field at its default, [tokens_per_sec = 0]
    included; neither the lines of the body nor its JSON are looked at. *)
Theorem non_200_is_an_error
    (loads : string -> option pyval) (w : world) (p : string) (stream : bool)
    (now : Q) (resp : response) (now' : Q) (body : string) :
  post w = Ready now resp ->
  resp_status resp <> 200 ->
  resp_text resp = Ready now' body ->
  send_request loads w p stream
  = {| prompt := p; status := "error"; ttft_ms := 0%Q;
       total_time_s := (now' - t0 w)%Q;
       prompt_tokens := PInt 0; completion_tokens := PInt 0;
       tokens_per_sec := 0%Q;
       error := "HTTP " ++ str_of_int (resp_status resp) ++ ": " ++ body |}.
Proof.
  intros Hpost Hst Htext.
  unfold send_request, try_block. rewrite Hpost.
  destruct (Z.eqb_spec (resp_status resp) 200) as [E|_]; [contradiction|].
  simpl. rewrite Htext. reflexivity.
Qed.

Lemma non_200_is_an_error_witness :
  resp_status (mkResponse 500 (Ready 12%Q "overloaded") [] (Eof 12%Q)
                 (Ready 12%Q PNone)) <> 200
  /\ status (send_request sample_loads overloaded_world "p" true) = "error"
  /\ error (send_request sample_loads overloaded_world "p" true)
     = "HTTP 500: overloaded"
  /\ tokens_per_sec (send_request sample_loads overloaded_world "p" true) = 0%Q.
Proof.
  assert (N : resp_status (mkResponse 500 (Ready 12%Q "overloaded") [] (Eof 12%Q)
                             (Ready 12%Q PNone)) <> 200) by discriminate.
  split; [exact N|].
  rewrite (non_200_is_an_error sample_loads overloaded_world "p" true
             11%Q _ 12%Q "overloaded" eq_refl N eq_refl).
  repeat split.
Defined.

(** ** C10: the count of a streamed request that succeeded *)

(** C10, as the claim states it, fails: a usage block that reports a
    negative count is truthy, so it overwrites the estimate, and the
    request still ends with status ok. *)
Lemma negative_usage_is_installed :
  status (send_request sample_loads negative_usage_world "p" true) = "ok"
  /\ ~ at_least_one
         (completion_tokens (send_request sample_loads negative_usage_world "p" true)).
Proof.
  split; [reflexivity|].
  intros (q & Hq & Hle).
  assert (E : completion_tokens
                (send_request sample_loads negative_usage_world "p" true)
              = PInt (-1)) by reflexivity.
  rewrite E in Hq. simpl in Hq. inversion Hq; subst q.
  revert Hle. apply Qlt_not_le. reflexivity.
Qed.

(** C10, amended: for a streamed request that ends with status ok,
    [completion_tokens] is never zero (it is truthy); with no decoded chunk
    at all it is exactly 1; and it is at least 1 provided the count that
    the usage block of the last decoded chunk reports, when it is truthy,
    is itself at least 1. *)
Theorem streamed_ok_count_is_not_zero
    (loads : string -> option pyval) (w : world) (p : string)
    (now : Q) (resp : response) :
  post w = Ready now resp ->
  resp_status resp = 200 ->
  status (send_request loads w p true) = "ok" ->
  truthy (completion_tokens (send_request loads w p true)) = true
  /\ (events loads (resp_content resp) = [] ->
      completion_tokens (send_request loads w p true) = PInt 1)
  /\ ((forall chunk v,
         last_of (events loads (resp_content resp)) None = Some chunk ->
         reported "completion_tokens" chunk = Some v ->
         truthy v = true -> at_least_one v) ->
      at_least_one (completion_tokens (send_request loads w p true))).
Proof.
  intros Hpost Hst Hok.
  destruct (streamed_ok_consumed loads w p now resp Hpost Hst Hok) as (s & t & Hc).
  destruct (send_request_streamed loads w p now resp s t Hpost Hst Hc) as [Ec _].
  destruct (consume_events loads _ _ _ _ _ Hc) as [Htext Hl].
  simpl in Htext, Hl.
  set (est := Z.max 1 (Z.of_nat (String.length (completion_text s)) / 4)).
  assert (Hm : completion_tokens (measure w s t (new_result p)) = PInt est).
  { unfold measure. destruct (first_token_time s); reflexivity. }
  assert (Hest : 1 <= est) by (unfold est; lia).
  rewrite Ec.
  destruct (apply_usage_completion s (measure w s t (new_result p)))
    as [E | (chunk & c & Hlast & Hrep & Htc & E)]; rewrite E.
  - rewrite Hm. split; [|split].
    + simpl. destruct (Z.eqb_spec est 0); [lia | reflexivity].
    + intros Hnil. unfold est. rewrite Htext, Hnil. reflexivity.
    + intros _. exists (inject_Z est). split; [reflexivity|].
      change 1%Q with (inject_Z 1). now rewrite <- Zle_Qle.
  - split; [exact Htc|]. split.
    + intros Hnil. rewrite Hl, Hnil in Hlast. discriminate Hlast.
    + intros H. apply (H chunk c); [now rewrite <- Hl | exact Hrep | exact Htc].
Qed.

(** No chunk and no usage block at all: the count is 1. *)
Lemma streamed_ok_count_is_not_zero_witness :
  status (send_request sample_loads (streamed 0%Q [] (Eof 1%Q)) "p" true) = "ok"
  /\ completion_tokens
       (send_request sample_loads (streamed 0%Q [] (Eof 1%Q)) "p" true) = PInt 1.
Proof.
  split; [reflexivity|].
  exact (proj1 (proj2 (streamed_ok_count_is_not_zero sample_loads
                         (streamed 0%Q [] (Eof 1%Q)) "p" 0%Q _
                         eq_refl eq_refl eq_refl)) eq_refl).
Defined.

(* ================================================================== *)
(** * Properties of the aggregation *)

Local Open Scope Q_scope.

(** ** Sums *)

Lemma fold_Qplus_shift (xs : list Q) :
  forall a, fold_left Qplus xs a == a + fsum xs.
Proof.
  unfold fsum.
  induction xs as [|x xs IH]; intros a; simpl.
  - lra.
  - rewrite (IH (a + x)), (IH (0 + x)). lra.
Qed.

Lemma fsum_cons (x : Q) (xs : list Q) : fsum (x :: xs) == x + fsum xs.
Proof. unfold fsum at 1. simpl. rewrite fold_Qplus_shift. lra. Qed.













(** Only a value that is not a number makes [sum] raise, and it raises
    [TypeError]; the sum of numbers is an [int] or a [float]. *)
Lemma py_sum_from_outcome (vs : list pyval) :
  forall a, same_number a a ->
    match py_sum_from a vs with
    | inl e => exn_class e = "TypeError"%string /\ ~ Forall is_number vs
    | inr r => same_number r r
    end.
Proof.
  induction vs as [|v vs IH]; intros a Ha; simpl.
  - exact Ha.
  - destruct (py_add a v) as [e|r] eqn:Hadd; simpl.
    + destruct a; simpl in Ha; try contradiction;
        destruct v; simpl in Hadd; try discriminate;
        inversion Hadd; subst e; (split; [reflexivity|]);
        intros HF; inversion HF as [|? ? Hn _]; subst; now apply Hn.
    + assert (Hr : same_number r r).
      { destruct a; simpl in Ha; try contradiction;
          destruct v; simpl in Hadd; try discriminate;
          inversion Hadd; subst r; simpl; reflexivity. }
      specialize (IH r Hr). destruct (py_sum_from r vs) as [e|r'].
      * destruct IH as [Hc Hn]. split; [exact Hc|].
        intros HF. inversion HF; subst. now apply Hn.
      * exact IH.
Qed.


(** ** Order statistics *)

Lemma Qle_bool_false (x y : Q) : Qle_bool x y = false -> y < x.
Proof.
  intros H. apply Qnot_le_lt. intros Hle.
  apply Qle_bool_iff in Hle. congruence.
Qed.

Lemma Qlt_bool_true (x y : Q) : Qlt_bool x y = true -> x < y.
Proof.
  unfold Qlt_bool. intros H. apply Qle_bool_false.
  now destruct (Qle_bool y x).
Qed.

Lemma Qlt_bool_false (x y : Q) : Qlt_bool x y = false -> y <= x.
Proof.
  unfold Qlt_bool. intros H. apply Qle_bool_iff.
  now destruct (Qle_bool y x).
Qed.



Lemma insert_sorted_permutation (x : Q) (l : list Q) :
  Permutation (insert_sorted x l) (x :: l).
Proof.
  induction l as [|y l IH]; simpl.
  - reflexivity.
  - destruct (Qle_bool x y); [reflexivity|].
    rewrite IH. apply perm_swap.
Qed.

Lemma sorted_permutation (l : list Q) : Permutation (sorted l) l.
Proof.
  induction l as [|x l IH]; simpl.
  - constructor.
  - rewrite insert_sorted_permutation. now constructor.
Qed.









Lemma max_from_spec (xs : list Q) :
  forall m, In (max_from m xs) (m :: xs)
            /\ Forall (fun x => x <= max_from m xs) (m :: xs).
Proof.
  induction xs as [|x xs IH]; intros m; simpl.
  - split; [now left | repeat constructor; lra].
  - destruct (IH (if Qlt_bool m x then x else m)) as [Hin Hall].
    inversion Hall as [|? ? Hm Hxs]; subst.
    destruct (Qlt_bool m x) eqn:Hlt.
    + apply Qlt_bool_true in Hlt. split.
      * destruct Hin as [<- | Hin]; [right; now left | right; now right].
      * constructor; [lra|]. now constructor.
    + apply Qlt_bool_false in Hlt. split.
      * destruct Hin as [<- | Hin]; [now left | right; now right].
      * constructor; [exact Hm|]. constructor; [lra | exact Hxs].
Qed.

Lemma min_from_spec (xs : list Q) :
  forall m, In (min_from m xs) (m :: xs)
            /\ Forall (fun x => min_from m xs <= x) (m :: xs).
Proof.
  induction xs as [|x xs IH]; intros m; simpl.
  - split; [now left | repeat constructor; lra].
  - destruct (IH (if Qlt_bool x m then x else m)) as [Hin Hall].
    inversion Hall as [|? ? Hm Hxs]; subst.
    destruct (Qlt_bool x m) eqn:Hlt.
    + apply Qlt_bool_true in Hlt. split.
      * destruct Hin as [<- | Hin]; [right; now left | right; now right].
      * constructor; [lra|]. now constructor.
    + apply Qlt_bool_false in Hlt. split.
      * destruct Hin as [<- | Hin]; [now left | right; now right].
      * constructor; [exact Hm|]. constructor; [lra | exact Hxs].
Qed.





(** ** The report *)



(** The statistics are computed whenever both sums of token counts are. *)
Lemma statistics_total (ok : list RequestResult) (errs : Z) (wall : Q)
    (tc tp : pyval) :
  ok <> [] ->
  py_sum (map completion_tokens ok) = inr tc ->
  py_sum (map prompt_tokens ok) = inr tp ->
  exists s, statistics ok errs wall = inr (Statistics s)
            /\ nth_error (sorted (map tokens_per_sec ok)) (Nat.div (length ok) 2)
               = Some (p50 s).
Proof.
  intros Hne Hc Hp. unfold statistics. rewrite Hc, Hp. cbn [bind].
  assert (Hlen : (0 < length ok)%nat) by (destruct ok; [congruence | simpl; lia]).
  unfold fdiv_int at 1.
  destruct (Z.eqb_spec (Z.of_nat (length ok)) 0) as [E|_]; [lia|]. cbn [bind].
  assert (Hagg : exists agg,
             (if nonzero wall then py_truediv tc wall else inr 0%Q) = inr agg).
  { destruct (nonzero wall) eqn:Hw; [|now eexists].
    pose proof (py_sum_from_outcome (map completion_tokens ok) (PInt 0) eq_refl)
      as Hn.
    unfold py_sum in Hc. rewrite Hc in Hn. unfold py_truediv.
    unfold nonzero in Hw. apply negb_true_iff in Hw.
    destruct tc; simpl in Hn; try contradiction; simpl; rewrite Hw; now eexists. }
  destruct Hagg as [agg ->]. cbn [bind].
  unfold fdiv_int.
  destruct (Z.eqb_spec
              (Z.max 1 (Z.of_nat (length (filter nonzero (map ttft_ms ok))))) 0)
    as [E|_]; [lia|]. cbn [bind].
  unfold py_item.
  destruct (nth_error (sorted (map tokens_per_sec ok)) (Nat.div (length ok) 2))
    as [med|] eqn:Hmed.
  2:{ apply nth_error_None in Hmed.
      rewrite (Permutation_length (sorted_permutation _)), length_map in Hmed.
      pose proof (Nat.div_lt (length ok) 2 Hlen ltac:(lia)). lia. }
  cbn [bind].
  assert (Hmax : exists hi, py_max (map tokens_per_sec ok) = inr hi)
    by (destruct ok; [congruence | now eexists]).
  assert (Hmin : exists lo, py_min (map tokens_per_sec ok) = inr lo)
    by (destruct ok; [congruence | now eexists]).
  destruct Hmax as [hi ->], Hmin as [lo ->]. cbn [bind].
  eexists. split; reflexivity.
Qed.

(** The only exception of the statistics is the [TypeError] of a sum over
    token counts that are not all numbers. *)
Lemma statistics_raises (ok : list RequestResult) (errs : Z) (wall : Q) (e : exn) :
  ok <> [] ->
  statistics ok errs wall = inl e ->
  exn_class e = "TypeError"%string.
Proof.
  intros Hne H.
  destruct (py_sum (map completion_tokens ok)) as [e1|tc] eqn:Hc.
  - unfold statistics in H. rewrite Hc in H. simpl in H. inversion H; subst.
    pose proof (py_sum_from_outcome (map completion_tokens ok) (PInt 0) eq_refl)
      as Hn.
    unfold py_sum in Hc. rewrite Hc in Hn. tauto.
  - destruct (py_sum (map prompt_tokens ok)) as [e2|tp] eqn:Hp.
    + unfold statistics in H. rewrite Hc, Hp in H. simpl in H.
      inversion H; subst.
      pose proof (py_sum_from_outcome (map prompt_tokens ok) (PInt 0) eq_refl)
        as Hn.
      unfold py_sum in Hp. rewrite Hp in Hn. tauto.
    + destruct (statistics_total ok errs wall tc tp Hne Hc Hp) as (s & Hs & _).
      congruence.
Qed.

Lemma summarize_all_failed (results : list RequestResult) (wall : Q) :
  (forall r, In r results -> status r = "error"%string) ->
  summarize results wall = inr AllFailed.
Proof.
  intros H. unfold summarize.
  assert (E : filter is_ok results = []).
  { induction results as [|r rest IH]; simpl; [reflexivity|].
    unfold is_ok at 1. rewrite (H r (or_introl eq_refl)). simpl.
    apply IH. intros r' Hr'. apply H. now right. }
  now rewrite E.
Qed.

(** ** C6: the order of the results *)



(** ** C7: the median *)



(** ** C9: a batch in which everything failed *)

(** C9: when every result has status error the statistics are skipped: the
    report is "all requests failed" and nothing is summed or divided.  For
    any batch, the report never raises [ZeroDivisionError]: the divisions
    of lines 283-285 are by [len(ok)], by a non-zero [wall] and by a count
    that is at least 1. *)
Theorem all_failed_batch_skips_statistics
    (results : list RequestResult) (wall : Q) :
  ((forall r, In r results -> status r = "error"%string) ->
   summarize results wall = inr AllFailed)
  /\ (forall e, summarize results wall = inl e ->
        exn_class e <> "ZeroDivisionError"%string).
Proof.
  split.
  - apply summarize_all_failed.
  - intros e H. unfold summarize in H.
    destruct (filter is_ok results) as [|r ok] eqn:E; [discriminate H|].
    apply statistics_raises in H; [|discriminate].
    rewrite H. discriminate.
Qed.

Lemma all_failed_batch_skips_statistics_witness :
  summarize [failed_result "HTTP 500: overloaded"; failed_result ""] 2
  = inr AllFailed.
Proof.
  apply (proj1 (all_failed_batch_skips_statistics
                  [failed_result "HTTP 500: overloaded"; failed_result ""] 2)).
  intros r [<- | [<- | []]]; reflexivity.
Defined.

(* ================================================================== *)
(** * Properties of the admission gate *)

Local Close Scope Q_scope.
Local Open Scope Z_scope.

Lemma remove_nth_permutation {A : Type} (l : list A) :
  forall i x, nth_error l i = Some x -> Permutation l (x :: remove_nth i l).
Proof.
  induction l as [|y l IH]; intros [|i] x H; simpl in *; try discriminate.
  - inversion H. reflexivity.
  - rewrite (IH i x H) at 1. apply perm_swap.
Qed.

Lemma perm_shift {A : Type} (x : A) (a b c : list A) :
  Permutation ((x :: a) ++ b ++ c)%list (a ++ (b ++ [x]) ++ c)%list.
Proof.
  simpl. rewrite <- app_assoc. simpl.
  transitivity (a ++ x :: b ++ c)%list.
  - apply Permutation_middle.
  - apply Permutation_app_head, Permutation_middle.
Qed.

Section Gate.

Variable loads : string -> option pyval.
Variable stream : bool.
Variable parallel : Z.
Variable jobs : list job.

Lemma step_invariant (s s' : pool) (ev : event) :
  invariant loads stream parallel jobs s -> step loads stream s ev = Some s' ->
  invariant loads stream parallel jobs s' /\ S (remaining s') = remaining s.
Proof.
  intros (Hsem & Hcap & Hperm) Hstep. unfold invariant, remaining.
  destruct ev as [i | i |]; simpl in Hstep.
  - destruct (nth_error (waiting s) i) as [j|] eqn:Hj; [|discriminate].
    destruct (Z.ltb_spec 0 (sem s)) as [Hpos|]; [|discriminate].
    inversion Hstep; subst s'; clear Hstep. simpl.
    pose proof (remove_nth_permutation _ _ _ Hj) as Hw.
    pose proof (Permutation_length Hw) as Hlen. simpl in Hlen.
    rewrite length_app. simpl. repeat split; try lia.
    rewrite map_app. simpl map.
    eapply Permutation_trans; [symmetry; apply perm_shift|].
    eapply Permutation_trans; [|exact Hperm].
    apply Permutation_app_tail.
    change (Permutation (map (bounded loads stream) (j :: remove_nth i (waiting s)))
                        (map (bounded loads stream) (waiting s))).
    apply Permutation_map. now symmetry.
  - destruct (nth_error (in_flight s) i) as [j|] eqn:Hj; [|discriminate].
    inversion Hstep; subst s'; clear Hstep. simpl.
    pose proof (remove_nth_permutation _ _ _ Hj) as Hf.
    pose proof (Permutation_length Hf) as Hlen. simpl in Hlen.
    rewrite length_app. simpl. repeat split; try lia.
    eapply Permutation_trans; [|exact Hperm].
    apply Permutation_app_head.
    eapply Permutation_trans; [symmetry; apply perm_shift|].
    apply Permutation_app_tail.
    change (Permutation
              (map (bounded loads stream) (j :: remove_nth i (in_flight s)))
              (map (bounded loads stream) (in_flight s))).
    apply Permutation_map. now symmetry.
  - destruct (completed s) as [|r rest] eqn:Hc; [discriminate|].
    inversion Hstep; subst s'; clear Hstep. simpl.
    repeat split; try lia.
    eapply Permutation_trans; [|exact Hperm].
    apply Permutation_app_head, Permutation_app_head.
    rewrite app_assoc. symmetry. apply Permutation_cons_append.
Qed.

Lemma run_invariant (trace : list event) :
  forall s s',
    invariant loads stream parallel jobs s ->
    run loads stream s trace = Some s' ->
    invariant loads stream parallel jobs s'
    /\ (length trace + remaining s')%nat = remaining s.
Proof.
  induction trace as [|ev trace IH]; intros s s' Hinv Hrun; simpl in Hrun.
  - inversion Hrun; subst. now split.
  - destruct (step loads stream s ev) as [s1|] eqn:Hstep; [|discriminate].
    destruct (step_invariant _ _ _ Hinv Hstep) as [Hinv1 Hrem1].
    destruct (IH _ _ Hinv1 Hrun) as [Hinv' Hrem'].
    split; [exact Hinv'|]. simpl. lia.
Qed.




Lemma start_invariant (s0 : pool) :
  start parallel jobs = inr s0 ->
  invariant loads stream parallel jobs s0 /\ remaining s0 = (3 * length jobs)%nat.
Proof.
  unfold start. destruct (Z.ltb_spec parallel 0) as [|Hge]; [discriminate|].
  intros H. inversion H; subst s0. unfold invariant, remaining. simpl.
  repeat split; try lia.
  rewrite !app_nil_r. reflexivity.
Qed.

End Gate.

(** ** [run_bench] as a whole *)





(** ** C3: the cap and the number of results *)




(* ================================================================== *)
(** * Further properties of the worker *)

Local Close Scope Q_scope.
Local Open Scope Z_scope.

Lemma apply_usage_keeps (s : scan) (result : RequestResult) :
  same_but_counts (fst (apply_usage s result)) result.
Proof.
  unfold apply_usage, same_but_counts.
  destruct (last_chunk s) as [chunk|]; [|now repeat split].
  destruct (truthy chunk); [|now repeat split].
  destruct (py_get chunk "usage" PNone) as [e|u]; [now repeat split|].
  destruct (py_get (py_or u (PDict [])) "completion_tokens" PNone) as [e|c];
    [now repeat split|].
  destruct (py_get (py_or u (PDict [])) "prompt_tokens" PNone) as [e|p];
    destruct (truthy c); try destruct (truthy p); now repeat split.
Qed.

(** What lines 167-168 do to a result. *)
Lemma rate_outcome (result : RequestResult) :
  same_but_counts
    (set_tokens_per_sec (tokens_per_sec result) (fst (rate result))) result
  /\ completion_tokens (fst (rate result)) = completion_tokens result
  /\ prompt_tokens (fst (rate result)) = prompt_tokens result
  /\ match snd (rate result) with
     | Some e => tokens_per_sec (fst (rate result)) = tokens_per_sec result
     | None =>
         if truthy (completion_tokens result) && Qlt_bool 0 (total_time_s result)
         then exists q, num_of (completion_tokens result) = Some q
                        /\ tokens_per_sec (fst (rate result))
                           = (q / total_time_s result)%Q
         else tokens_per_sec (fst (rate result)) = tokens_per_sec result
     end.
Proof.
  unfold rate, same_but_counts.
  destruct (truthy (completion_tokens result)
            && Qlt_bool 0 (total_time_s result)) eqn:Hcond.
  - unfold py_truediv.
    destruct (num_of (completion_tokens result)) as [q|]; simpl.
    + destruct (Qeq_bool (total_time_s result) 0); simpl.
      * tauto.
      * split; [tauto|]. split; [reflexivity|]. split; [reflexivity|].
        now exists q.
    + tauto.
  - simpl. tauto.
Qed.

(** How the [try] block is left, for every exchange: the prompt is kept;
    a result that is returned is ok with an empty error and a rate that
    lines 167-168 give, or it is the error of a status that is not 200;
    a result that goes to the handler has no rate yet. *)
Lemma try_block_outcome (loads : string -> option pyval) (w : world)
    (stream : bool) (p : string) :
  match try_block loads w stream (new_result p) with
  | Returned r =>
      prompt r = p
      /\ ((status r = "ok"%string /\ error r = ""%string
           /\ if truthy (completion_tokens r) && Qlt_bool 0 (total_time_s r)
              then exists q, num_of (completion_tokens r) = Some q
                             /\ tokens_per_sec r = (q / total_time_s r)%Q
              else tokens_per_sec r = 0%Q)
          \/ (status r = "error"%string /\ tokens_per_sec r = 0%Q))
  | Raised r e now => prompt r = p /\ tokens_per_sec r = 0%Q
  end.
Proof.
  assert (Hleave : forall now r0,
            prompt r0 = p -> status r0 = "ok"%string -> error r0 = ""%string ->
            tokens_per_sec r0 = 0%Q ->
            match leave now (rate r0) with
            | Returned r =>
                prompt r = p
                /\ ((status r = "ok"%string /\ error r = ""%string
                     /\ if truthy (completion_tokens r)
                           && Qlt_bool 0 (total_time_s r)
                        then exists q, num_of (completion_tokens r) = Some q
                                       /\ tokens_per_sec r
                                          = (q / total_time_s r)%Q
                        else tokens_per_sec r = 0%Q)
                    \/ (status r = "error"%string /\ tokens_per_sec r = 0%Q))
            | Raised r e now' => prompt r = p /\ tokens_per_sec r = 0%Q
            end).
  { intros now r0 Hp Hs He Ht.
    destruct (rate_outcome r0) as ((Kp & Ks & Ke & _ & Kt & _) & Kc & _ & Kr).
    simpl in Kp, Ks, Ke, Kt.
    destruct (rate r0) as [r [e|]]; simpl in *.
    - split; congruence.
    - split; [congruence|]. left. split; [congruence|]. split; [congruence|].
      rewrite Kc, Kt.
      destruct (truthy (completion_tokens r0) && Qlt_bool 0 (total_time_s r0)).
      + destruct Kr as (q & Hq & Hr). exists q. split; [exact Hq|].
        now rewrite Hr.
      + congruence. }
  unfold try_block.
  destruct (post w) as [now resp | now e]; [|now split].
  destruct (negb (resp_status resp =? 200)).
  { destruct (resp_text resp) as [now' text | now' e]; simpl.
    - split; [reflexivity|]. right. now split.
    - now split. }
  destruct stream.
  - destruct (consume loads (resp_content resp) (resp_end resp) scan0)
      as [[e t]|[s t]]; [now split|].
    assert (Hmeasure : prompt (measure w s t (new_result p)) = p
                       /\ status (measure w s t (new_result p)) = "ok"%string
                       /\ error (measure w s t (new_result p)) = ""%string
                       /\ tokens_per_sec (measure w s t (new_result p)) = 0%Q).
    { unfold measure. destruct (first_token_time s); now repeat split. }
    destruct Hmeasure as (Mp & Ms & Me & Mt).
    destruct (apply_usage_keeps s (measure w s t (new_result p)))
      as (Kp & Ks & Ke & _ & _ & Kt).
    destruct (apply_usage s (measure w s t (new_result p))) as [r [e|]];
      simpl in *.
    + split; congruence.
    + apply Hleave; congruence.
  - destruct (resp_json resp) as [now' data | now' e]; [|now split].
    destruct (py_get data "usage" (PDict [])) as [e|usage]; [now split|].
    destruct (py_get usage "prompt_tokens" (PInt 0)) as [e|pt]; [now split|].
    destruct (py_get usage "completion_tokens" (PInt 0)) as [e|ct];
      [now split|].
    apply Hleave; reflexivity.
Qed.

(** X1: whatever the exchange, the result keeps the prompt, its status is
    ok or error, an ok result has an empty error, and a result with status
    error has a rate of zero. *)
Theorem result_is_ok_or_error
    (loads : string -> option pyval) (w : world) (p : string) (stream : bool) :
  let r := send_request loads w p stream in
  prompt r = p
  /\ (status r = "ok"%string \/ status r = "error"%string)
  /\ (status r = "ok"%string -> error r = ""%string)
  /\ (status r = "error"%string -> tokens_per_sec r = 0%Q).
Proof.
  unfold send_request.
  pose proof (try_block_outcome loads w stream p) as H.
  destruct (try_block loads w stream (new_result p)) as [r | r e now]; simpl.
  - destruct H as (Hp & [(Hs & He & _) | (Hs & Ht)]).
    + repeat split; auto. intros E. rewrite Hs in E. discriminate E.
    + repeat split; auto. intros E. rewrite Hs in E. discriminate E.
  - destruct H as (Hp & Ht). repeat split; auto. intros E. discriminate E.
Qed.

Lemma result_is_ok_or_error_witness :
  status (send_request more_loads final_usage_world "p" true) = "error"%string
  /\ tokens_per_sec (send_request more_loads final_usage_world "p" true) = 0%Q.
Proof.
  split; [reflexivity|].
  exact (proj2 (proj2 (proj2 (result_is_ok_or_error more_loads final_usage_world
                                "p" true))) eq_refl).
Defined.

(** X2: in an ok result, streamed or not, the rate is
    [completion_tokens / total_time_s] when the count is truthy and the
    time positive (the count is then a number), and zero otherwise. *)
Theorem rate_of_an_ok_result
    (loads : string -> option pyval) (w : world) (p : string) (stream : bool) :
  let r := send_request loads w p stream in
  status r = "ok"%string ->
  (truthy (completion_tokens r) && Qlt_bool 0 (total_time_s r) = true ->
   exists q, num_of (completion_tokens r) = Some q
             /\ tokens_per_sec r = (q / total_time_s r)%Q)
  /\ (truthy (completion_tokens r) && Qlt_bool 0 (total_time_s r) = false ->
      tokens_per_sec r = 0%Q).
Proof.
  unfold send_request.
  pose proof (try_block_outcome loads w stream p) as H.
  destruct (try_block loads w stream (new_result p)) as [r | r e now]; simpl.
  - intros Hok. destruct H as (_ & [(_ & _ & Hr) | (Hs & _)]).
    + destruct (truthy (completion_tokens r) && Qlt_bool 0 (total_time_s r));
        split; intros E; try discriminate E; exact Hr.
    + rewrite Hs in Hok. discriminate Hok.
  - intros Hok. discriminate Hok.
Qed.

Lemma rate_of_an_ok_result_witness :
  status (send_request sample_loads hello_world "p" true) = "ok"%string
  /\ exists q,
       num_of (completion_tokens (send_request sample_loads hello_world "p" true))
       = Some q
       /\ tokens_per_sec (send_request sample_loads hello_world "p" true)
          = (q / total_time_s (send_request sample_loads hello_world "p" true))%Q.
Proof.
  split; [reflexivity|].
  exact (proj1 (rate_of_an_ok_result sample_loads hello_world "p" true eq_refl)
           eq_refl).
Defined.

(** ** The time to the first token *)

Lemma consume_first_token (loads : string -> option pyval) (fin : ending)
    (lines : list (Q * string)) :
  forall s0 s t,
    consume loads lines fin s0 = inr (s, t) ->
    first_token_time s
    = match first_token_time s0 with
      | Some ft => Some ft
      | None => first_content_time loads lines
      end.
Proof.
  induction lines as [|[now raw_line] rest IH]; intros s0 s t H; simpl in H.
  - destruct fin; inversion H; subst. simpl.
    now destruct (first_token_time s).
  - rewrite on_line_cases in H. simpl.
    destruct (payload_of raw_line) as [payload|]; [|exact (IH _ _ _ H)].
    destruct (payload =? "[DONE]")%string.
    { inversion H; subst. now destruct (first_token_time s). }
    destruct (loads payload) as [chunk|]; [|exact (IH _ _ _ H)].
    unfold bind in H.
    destruct (token_text_of chunk) as [e|tt] eqn:Htt; [discriminate|].
    destruct (py_concat (completion_text s0) tt) as [e|text] eqn:Hc;
      [discriminate|].
    apply IH in H. simpl in H. rewrite H.
    destruct tt as [| | | |d| |]; simpl in Hc; try discriminate.
    unfold delta_of. rewrite Htt.
    destruct (first_token_time s0) as [ft|]; [reflexivity|].
    simpl truthy. destruct (d =? "")%string; reflexivity.
Qed.

Lemma send_request_streamed_ttft (loads : string -> option pyval) (w : world)
    (p : string) (now : Q) (resp : response) (s : scan) (t : Q) :
  post w = Ready now resp ->
  resp_status resp = 200 ->
  consume loads (resp_content resp) (resp_end resp) scan0 = inr (s, t) ->
  ttft_ms (send_request loads w p true)
  = ttft_ms (measure w s t (new_result p)).
Proof.
  intros Hpost Hst Hc.
  unfold send_request, try_block. rewrite Hpost, Hst. simpl negb. cbv iota.
  rewrite Hc.
  destruct (apply_usage_keeps s (measure w s t (new_result p)))
    as (_ & _ & _ & Kt & _).
  destruct (apply_usage s (measure w s t (new_result p))) as [r [e|]];
    simpl in *; [exact Kt|].
  destruct (rate_outcome r) as ((_ & _ & _ & Rt & _) & _).
  simpl in Rt. unfold leave.
  destruct (rate r) as [r' [e|]]; simpl in *; congruence.
Qed.

(** X3: in a streamed request that ends ok, [ttft_ms] is the time from the
    dispatch to the arrival of the first decoded chunk whose content delta
    is not empty, in milliseconds; it stays 0 when no chunk before the
    sentinel has content. *)
Theorem ttft_is_taken_at_the_first_content
    (loads : string -> option pyval) (w : world) (p : string)
    (now : Q) (resp : response) :
  post w = Ready now resp ->
  resp_status resp = 200 ->
  status (send_request loads w p true) = "ok"%string ->
  ttft_ms (send_request loads w p true)
  = match first_content_time loads (resp_content resp) with
    | Some arrival => ((arrival - t0 w) * 1000)%Q
    | None => 0%Q
    end.
Proof.
  intros Hpost Hst Hok.
  destruct (streamed_ok_consumed loads w p now resp Hpost Hst Hok) as (s & t & Hc).
  rewrite (send_request_streamed_ttft loads w p now resp s t Hpost Hst Hc).
  pose proof (consume_first_token loads _ _ _ _ _ Hc) as Hft. simpl in Hft.
  unfold measure. rewrite Hft.
  destruct (first_content_time loads (resp_content resp)); reflexivity.
Qed.

Lemma ttft_is_taken_at_the_first_content_witness :
  first_content_time sample_loads
    [(11, data (chunk_text "Hel")); (12, data (chunk_text "lo"));
     (13, data (usage_text "5")); (14, data "[DONE]")]%Q = Some 11%Q
  /\ ttft_ms (send_request sample_loads hello_world "p" true)
     = ((11 - 10) * 1000)%Q.
Proof.
  split; [reflexivity|].
  exact (ttft_is_taken_at_the_first_content sample_loads hello_world "p" 10%Q _
           eq_refl eq_refl eq_refl).
Defined.

(** ** Lines that are not events, and the sentinel *)

Lemma consume_passes (loads : string -> option pyval) (fin : ending)
    (t_line : Q) (line : string) (pre post' : list (Q * string)) :
  (forall now s, on_line loads now line s = inr (Continue s)) ->
  forall s0,
    consume loads (pre ++ (t_line, line) :: post') fin s0
    = consume loads (pre ++ post') fin s0.
Proof.
  intros Hline.
  induction pre as [|[now raw_line] pre IH]; intros s0; simpl.
  - now rewrite Hline.
  - destruct (on_line loads now raw_line s0) as [e|[s'|s']];
      [reflexivity | apply IH | reflexivity].
Qed.

(** X4: a line that does not start with [data:] once stripped (a blank
    keep-alive line, a comment, an [event:] field), put anywhere in the
    body, changes nothing in the returned result. *)
Theorem other_lines_are_ignored
    (loads : string -> option pyval) (start_t now t_line : Q) (line : string)
    (pre post' : list (Q * string)) (resp : response) (p : string)
    (stream : bool) :
  startswith (strip line) "data:" = false ->
  send_request loads
    (mkWorld start_t (Ready now (with_content (pre ++ (t_line, line) :: post') resp)))
    p stream
  = send_request loads
      (mkWorld start_t (Ready now (with_content (pre ++ post') resp)))
      p stream.
Proof.
  intros Hline.
  assert (E : forall s0,
            consume loads (pre ++ (t_line, line) :: post') (resp_end resp) s0
            = consume loads (pre ++ post') (resp_end resp) s0).
  { apply consume_passes. intros t s. unfold on_line. now rewrite Hline. }
  unfold send_request, try_block. simpl. now rewrite E.
Qed.

Lemma other_lines_are_ignored_witness :
  startswith (strip ": keep-alive") "data:" = false
  /\ send_request sample_loads
       (streamed 10%Q
          ([(11%Q, data (chunk_text "Hel"))]
             ++ ((23 # 2)%Q, ": keep-alive")
             :: [(12%Q, data (chunk_text "lo")); (13%Q, data "[DONE]")])%list
          (Eof 14%Q)) "p" true
     = send_request sample_loads
         (streamed 10%Q
            ([(11%Q, data (chunk_text "Hel"))]
               ++ [(12%Q, data (chunk_text "lo")); (13%Q, data "[DONE]")])%list
            (Eof 14%Q)) "p" true.
Proof.
  split; [reflexivity|].
  exact (other_lines_are_ignored sample_loads 10%Q 10%Q (23 # 2)%Q
           ": keep-alive" _ _
           (mkResponse 200 (Ready 10%Q "") [] (Eof 14%Q) (Ready 10%Q PNone))
           "p" true eq_refl).
Defined.

Lemma consume_stops_at_done (loads : string -> option pyval)
    (t_done : Q) (done : string) (pre : list (Q * string)) :
  payload_of done = Some "[DONE]"%string ->
  forall post1 post2 fin1 fin2 s0,
    consume loads (pre ++ (t_done, done) :: post1) fin1 s0
    = consume loads (pre ++ (t_done, done) :: post2) fin2 s0.
Proof.
  intros Hdone post1 post2 fin1 fin2.
  induction pre as [|[now raw_line] pre IH]; intros s0; simpl.
  - rewrite on_line_cases, Hdone. reflexivity.
  - destruct (on_line loads now raw_line s0) as [e|[s'|s']];
      [reflexivity | apply IH | reflexivity].
Qed.

(** X5: the body is not read past the sentinel: what follows a
    [data: [DONE]] line, and the way the body ends after it (exhausted, or
    an exception of the transport), does not change the result of a
    streamed request. *)
Theorem nothing_is_read_after_done
    (loads : string -> option pyval) (start_t now t_done : Q) (done : string)
    (pre post1 post2 : list (Q * string)) (fin1 fin2 : ending)
    (text : awaited string) (js : awaited pyval) (p : string) :
  payload_of done = Some "[DONE]"%string ->
  send_request loads
    (mkWorld start_t
       (Ready now (mkResponse 200 text (pre ++ (t_done, done) :: post1) fin1 js)))
    p true
  = send_request loads
      (mkWorld start_t
         (Ready now (mkResponse 200 text (pre ++ (t_done, done) :: post2) fin2 js)))
      p true.
Proof.
  intros Hdone.
  unfold send_request, try_block. simpl.
  now rewrite (consume_stops_at_done loads t_done done pre Hdone
                 post1 post2 fin1 fin2 scan0).
Qed.

Lemma nothing_is_read_after_done_witness :
  payload_of "data: [DONE]" = Some "[DONE]"%string
  /\ send_request sample_loads
       (mkWorld 10%Q
          (Ready 10%Q
             (mkResponse 200 (Ready 10%Q "")
                ([(11%Q, data (chunk_text "Hel"))]
                   ++ (12%Q, "data: [DONE]")
                   :: [(13%Q, data (chunk_text "lo"))])%list
                (Broken 14%Q (Exn "ClientPayloadError" "reset"))
                (Ready 10%Q PNone)))) "p" true
     = send_request sample_loads
         (mkWorld 10%Q
            (Ready 10%Q
               (mkResponse 200 (Ready 10%Q "")
                  ([(11%Q, data (chunk_text "Hel"))]
                     ++ (12%Q, "data: [DONE]") :: [])%list
                  (Eof 13%Q) (Ready 10%Q PNone)))) "p" true.
Proof.
  split; [reflexivity|].
  exact (nothing_is_read_after_done sample_loads 10%Q 10%Q 12%Q "data: [DONE]"
           [(11%Q, data (chunk_text "Hel"))] _ _ _ _ _ _ "p" eq_refl).
Defined.

(** ** A chunk without a choice *)

Lemma goes_on_spec (loads : string -> option pyval) (line : Q * string) :
  goes_on loads line = true ->
  forall now s, exists s', on_line loads now (snd line) s = inr (Continue s').
Proof.
  unfold goes_on. intros H now s. rewrite on_line_cases in H |- *.
  destruct (payload_of (snd line)) as [payload|]; [|now eexists].
  destruct (payload =? "[DONE]")%string; [discriminate H|].
  destruct (loads payload) as [chunk|]; [|now eexists].
  unfold bind in *.
  destruct (token_text_of chunk) as [e|tt]; [discriminate H|].
  destruct tt; simpl in *; try discriminate H; now eexists.
Qed.

Lemma consume_after_prefix (loads : string -> option pyval)
    (pre : list (Q * string)) :
  Forall (fun line => goes_on loads line = true) pre ->
  forall s0, exists s1,
    forall rest fin,
      consume loads (pre ++ rest) fin s0 = consume loads rest fin s1.
Proof.
  induction 1 as [|[now raw_line] pre Hline _ IH]; intros s0.
  - now exists s0.
  - destruct (goes_on_spec loads _ Hline now s0) as [s' Hs']. simpl in Hs'.
    destruct (IH s') as [s1 Hs1]. exists s1. intros rest fin. simpl.
    rewrite Hs'. apply Hs1.
Qed.

(** X6: a decoded chunk whose [choices] is an empty list, reached by the
    loop, makes the whole request an error: [[][0]] raises, the result has
    status error, the error "list index out of range" and the time elapsed
    at that line, and no token count or TTFT is recorded even when content
    arrived before.  (The closing chunk that carries only the usage has
    this shape.) *)
Theorem chunk_without_choice_fails_the_request
    (loads : string -> option pyval) (w : world) (p : string) (now : Q)
    (resp : response) (pre post' : list (Q * string)) (t_line : Q)
    (line payload : string) (kv : list (string * pyval)) :
  post w = Ready now resp ->
  resp_status resp = 200 ->
  resp_content resp = (pre ++ (t_line, line) :: post')%list ->
  Forall (fun l => goes_on loads l = true) pre ->
  payload_of line = Some payload ->
  payload <> "[DONE]"%string ->
  loads payload = Some (PDict kv) ->
  lookup "choices" kv = Some (PList []) ->
  send_request loads w p true
  = {| prompt := p; status := "error"; ttft_ms := 0%Q;
       total_time_s := (t_line - t0 w)%Q;
       prompt_tokens := PInt 0; completion_tokens := PInt 0;
       tokens_per_sec := 0%Q; error := "list index out of range" |}.
Proof.
  intros Hpost Hst Hlines Hpre Hp Hd Hl Hch.
  destruct (consume_after_prefix loads pre Hpre scan0) as [s1 Hs1].
  unfold send_request, try_block. rewrite Hpost, Hst. simpl negb. cbv iota.
  rewrite Hlines, Hs1. simpl consume.
  rewrite on_line_cases, Hp.
  destruct (String.eqb_spec payload "[DONE]") as [E|_]; [contradiction|].
  rewrite Hl. unfold token_text_of, py_get. rewrite Hch. reflexivity.
Qed.

Lemma chunk_without_choice_fails_the_request_witness :
  send_request more_loads final_usage_world "p" true
  = {| prompt := "p"; status := "error"; ttft_ms := 0%Q;
       total_time_s := (13 - 10)%Q;
       prompt_tokens := PInt 0; completion_tokens := PInt 0;
       tokens_per_sec := 0%Q; error := "list index out of range" |}.
Proof.
  refine (chunk_without_choice_fails_the_request more_loads final_usage_world
            "p" 10%Q _
            [(11%Q, data (chunk_text "Hel")); (12%Q, ": keep-alive")]
            [(14%Q, data "[DONE]")] 13%Q (data final_usage_text)
            final_usage_text
            [("choices", PList []);
             ("usage", PDict [("completion_tokens", PInt 2)])]
            eq_refl eq_refl eq_refl _ eq_refl _ eq_refl eq_refl).
  - repeat constructor.
  - discriminate.
Defined.

(** ** The path that is not streamed *)

(** X7: without streaming, a 200 response whose JSON body is an object gets
    its counts from the [usage] object as they are, 0 standing for a
    missing key; with no [usage] key at all the result is ok with both
    counts and the rate at 0. *)
Theorem unstreamed_counts_come_from_usage
    (loads : string -> option pyval) (w : world) (p : string) (now now' : Q)
    (resp : response) (kv : list (string * pyval)) :
  post w = Ready now resp ->
  resp_status resp = 200 ->
  resp_json resp = Ready now' (PDict kv) ->
  (forall u, lookup "usage" kv = Some (PDict u) ->
     prompt_tokens (send_request loads w p false)
     = or_zero (lookup "prompt_tokens" u)
     /\ completion_tokens (send_request loads w p false)
        = or_zero (lookup "completion_tokens" u)
     /\ total_time_s (send_request loads w p false) = (now' - t0 w)%Q)
  /\ (lookup "usage" kv = None ->
      send_request loads w p false
      = {| prompt := p; status := "ok"; ttft_ms := 0%Q;
           total_time_s := (now' - t0 w)%Q;
           prompt_tokens := PInt 0; completion_tokens := PInt 0;
           tokens_per_sec := 0%Q; error := "" |}).
Proof.
  intros Hpost Hst Hj. split.
  - intros u Hu.
    remember (send_request loads w p false) as res eqn:Hres.
    unfold send_request, try_block in Hres. rewrite Hpost, Hst in Hres.
    simpl negb in Hres. cbv iota in Hres. rewrite Hj in Hres.
    unfold py_get in Hres. rewrite Hu in Hres.
    set (r0 := set_completion_tokens _ _) in Hres.
    destruct (rate_outcome r0) as ((_ & _ & _ & _ & Rt & _) & Rc & Rp & _).
    simpl in Rt, Rc, Rp. unfold leave in Hres.
    destruct (rate r0) as [r [e|]]; simpl in Rt, Rc, Rp, Hres; subst res;
      simpl; unfold or_zero; rewrite ?Rc, ?Rp, ?Rt; repeat split.
  - intros Hu.
    unfold send_request, try_block. rewrite Hpost, Hst. simpl negb. cbv iota.
    rewrite Hj. unfold py_get at 1. rewrite Hu. reflexivity.
Qed.

Lemma unstreamed_counts_come_from_usage_witness :
  send_request sample_loads (unstreamed 1%Q (PDict [("id", PStr "x")])) "p" false
  = {| prompt := "p"; status := "ok"; ttft_ms := 0%Q;
       total_time_s := (1 + 2 - 1)%Q;
       prompt_tokens := PInt 0; completion_tokens := PInt 0;
       tokens_per_sec := 0%Q; error := "" |}.
Proof.
  exact (proj2 (unstreamed_counts_come_from_usage sample_loads
                  (unstreamed 1%Q (PDict [("id", PStr "x")])) "p" 1%Q (1 + 2)%Q _
                  [("id", PStr "x")] eq_refl eq_refl eq_refl) eq_refl).
Defined.

(** X8: without streaming, a [usage] entry that is not an object ([null]
    for instance) fails the request with the [AttributeError] of
    [usage.get]; line 163 has no [or {}], unlike line 155 of the streamed
    path, where such a [usage] in the last chunk is passed over when it is
    falsy. *)
Theorem unstreamed_usage_must_be_an_object
    (loads : string -> option pyval) (w : world) (p : string) (now now' : Q)
    (resp : response) (kv : list (string * pyval)) (v : pyval) :
  post w = Ready now resp ->
  resp_status resp = 200 ->
  resp_json resp = Ready now' (PDict kv) ->
  lookup "usage" kv = Some v ->
  (forall u, v <> PDict u) ->
  status (send_request loads w p false) = "error"%string
  /\ error (send_request loads w p false)
     = ("'" ++ type_name v ++ "' object has no attribute 'get'")%string
  /\ forall s result,
       last_chunk s = Some (PDict kv) -> truthy v = false ->
       apply_usage s result = (result, None).
Proof.
  intros Hpost Hst Hj Hu Hv. split; [|split].
  - unfold send_request, try_block. rewrite Hpost, Hst. simpl negb. cbv iota.
    rewrite Hj. unfold py_get at 1. rewrite Hu.
    destruct v; try reflexivity. now destruct (Hv kv0).
  - unfold send_request, try_block. rewrite Hpost, Hst. simpl negb. cbv iota.
    rewrite Hj. unfold py_get at 1. rewrite Hu.
    destruct v; try reflexivity. now destruct (Hv kv0).
  - intros s result Hlast Hfalsy. unfold apply_usage. rewrite Hlast.
    assert (Hkv : truthy (PDict kv) = true)
      by (destruct kv; [discriminate Hu | reflexivity]).
    rewrite Hkv. unfold py_get at 1. rewrite Hu.
    unfold py_or. rewrite Hfalsy. reflexivity.
Qed.

Lemma unstreamed_usage_must_be_an_object_witness :
  status (send_request sample_loads (unstreamed 1%Q (PDict [("usage", PNone)]))
            "p" false) = "error"%string
  /\ error (send_request sample_loads (unstreamed 1%Q (PDict [("usage", PNone)]))
              "p" false)
     = "'NoneType' object has no attribute 'get'"%string.
Proof.
  destruct (unstreamed_usage_must_be_an_object sample_loads
              (unstreamed 1%Q (PDict [("usage", PNone)])) "p" 1%Q (1 + 2)%Q _
              [("usage", PNone)] PNone eq_refl eq_refl eq_refl eq_refl)
    as (Hs & He & _).
  - discriminate.
  - split; [exact Hs | exact He].
Defined.

(* ================================================================== *)
(** * Further properties of the aggregation *)

Local Open Scope Q_scope.





Lemma fsum_bounds (lo hi : Q) (xs : list Q) :
  Forall (fun x => lo <= x /\ x <= hi) xs ->
  inject_Z (Z.of_nat (length xs)) * lo <= fsum xs
  /\ fsum xs <= inject_Z (Z.of_nat (length xs)) * hi.
Proof.
  induction 1 as [|x xs [Hlo Hhi] _ [IHlo IHhi]].
  - unfold fsum. simpl. change (inject_Z 0) with 0. split; lra.
  - rewrite fsum_cons. simpl length. rewrite Nat2Z.inj_succ.
    unfold Z.succ. rewrite inject_Z_plus.
    change (inject_Z 1) with 1. split; lra.
Qed.








Lemma statistics_with_errs (ok : list RequestResult) (e : Z) (f : Z -> Z)
    (wall : Q) :
  statistics ok (f e) wall = with_errs f (statistics ok e wall).
Proof.
  unfold statistics.
  repeat match goal with
         | |- bind ?c _ = with_errs _ (bind ?c _) =>
             destruct c; cbn [bind]; [reflexivity|]
         end.
  reflexivity.
Qed.

(** X12: a result whose status is not ok only counts as an error: put
    anywhere in the list of results it adds one to [errs] and changes
    nothing else in the report (no statistic, and not whether the report
    is "all requests failed" or an exception). *)
Theorem failed_result_only_counts_as_error
    (pre post' : list RequestResult) (r : RequestResult) (wall : Q) :
  status r <> "ok"%string ->
  summarize (pre ++ r :: post')%list wall
  = with_errs (fun e => (e + 1)%Z) (summarize (pre ++ post')%list wall).
Proof.
  intros Hr. unfold summarize.
  assert (Hf : filter is_ok (pre ++ r :: post')%list
               = filter is_ok (pre ++ post')%list).
  { rewrite !filter_app. simpl. unfold is_ok at 2.
    destruct (String.eqb_spec (status r) "ok"); [contradiction | reflexivity]. }
  rewrite Hf.
  destruct (filter is_ok (pre ++ post')%list) as [|x ok]; [reflexivity|].
  rewrite <- (statistics_with_errs (x :: ok) _ (fun e => (e + 1)%Z) wall).
  f_equal. rewrite !length_app. simpl length. lia.
Qed.

Lemma failed_result_only_counts_as_error_witness :
  status (failed_result "boom") <> "ok"%string
  /\ summarize ([ok_result 30] ++ failed_result "boom" :: [ok_result 10])%list 2
     = with_errs (fun e => (e + 1)%Z)
         (summarize ([ok_result 30] ++ [ok_result 10])%list 2).
Proof.
  assert (H : status (failed_result "boom") <> "ok"%string) by discriminate.
  split; [exact H|].
  exact (failed_result_only_counts_as_error [ok_result 30] [ok_result 10]
           (failed_result "boom") 2 H).
Defined.

(* ================================================================== *)
(** * Properties of the prompt source, the endpoint and the RAM monitor *)

Local Close Scope Q_scope.
Local Open Scope Z_scope.

(** ** [pick_prompts] *)

Lemma random_choice_in (pool : list string) (r : nat) :
  pool <> [] -> exists p, random_choice pool r = Some p /\ In p pool.
Proof.
  intros Hne. unfold random_choice.
  assert (Hlt : (Nat.modulo r (length pool) < length pool)%nat).
  { apply Nat.mod_upper_bound. destruct pool; [congruence | discriminate]. }
  destruct (nth_error pool (Nat.modulo r (length pool))) as [p|] eqn:E.
  - exists p. split; [reflexivity|]. exact (nth_error_In _ _ E).
  - apply nth_error_None in E. lia.
Qed.

Lemma choose_each_spec (pool : list string) (draws : nat -> nat) (count : nat) :
  pool <> [] ->
  forall i, exists prompts,
    choose_each pool draws i count = inr prompts
    /\ length prompts = count
    /\ forall k, (k < count)%nat ->
         nth_error prompts k = random_choice pool (draws (i + k)%nat)
         /\ exists p, nth_error prompts k = Some p /\ In p pool.
Proof.
  intros Hne. induction count as [|count IH]; intros i; simpl.
  - exists []. split; [reflexivity|]. split; [reflexivity|]. intros k Hk. lia.
  - destruct (random_choice_in pool (draws i) Hne) as (p & Hp & Hin).
    rewrite Hp. destruct (IH (S i)) as (rest & Hrest & Hlen & Hnth).
    rewrite Hrest. exists (p :: rest).
    split; [reflexivity|]. split; [simpl; now rewrite Hlen|].
    intros [|k] Hk; simpl.
    + rewrite Nat.add_0_r. split; [now rewrite Hp|]. now exists p.
    + replace (i + S k)%nat with (S i + k)%nat by lia. apply Hnth. lia.
Qed.

Lemma pool_of_known (size : string) (pool : list string) :
  pool_of size = inr pool -> pool <> [].
Proof.
  unfold pool_of. intros H.
  destruct (size =? "small")%string; [inversion H; discriminate|].
  destruct (size =? "medium")%string; [inversion H; discriminate|].
  destruct (size =? "large")%string; [inversion H; discriminate|].
  discriminate H.
Qed.

(** X13: for one of the three sizes [pick_prompts] never fails and returns
    exactly [max(n, 0)] prompts, the [k]-th being the element of the pool
    of that size that the [k]-th draw selects, so every prompt comes from
    that pool; for any other size it raises [KeyError(size)]. *)
Theorem pick_prompts_draws_from_the_pool
    (draws : nat -> nat) (n : Z) (size : string) :
  (forall pool, pool_of size = inr pool ->
     exists prompts,
       pick_prompts draws n size = inr prompts
       /\ Z.of_nat (length prompts) = Z.max n 0
       /\ forall k, (k < length prompts)%nat ->
            nth_error prompts k = random_choice pool (draws k)
            /\ exists p, nth_error prompts k = Some p /\ In p pool)
  /\ (size <> "small"%string -> size <> "medium"%string ->
      size <> "large"%string ->
      pick_prompts draws n size = inl (KeyError size)).
Proof.
  split.
  - intros pool Hpool. unfold pick_prompts. rewrite Hpool.
    destruct (choose_each_spec pool draws (Z.to_nat n) (pool_of_known _ _ Hpool) 0%nat)
      as (prompts & Hp & Hlen & Hnth).
    exists prompts. split; [exact Hp|]. split; [lia|].
    intros k Hk. rewrite Hlen in Hk. exact (Hnth k Hk).
  - intros H1 H2 H3. unfold pick_prompts, pool_of.
    destruct (String.eqb_spec size "small"); [contradiction|].
    destruct (String.eqb_spec size "medium"); [contradiction|].
    destruct (String.eqb_spec size "large"); [contradiction|].
    reflexivity.
Qed.

Lemma pick_prompts_draws_from_the_pool_witness :
  pool_of "medium" = inr MEDIUM_PROMPTS
  /\ exists prompts,
       pick_prompts (fun k => (7 * k + 3)%nat) 4 "medium" = inr prompts
       /\ Z.of_nat (length prompts) = Z.max 4 0.
Proof.
  split; [reflexivity|].
  destruct (proj1 (pick_prompts_draws_from_the_pool
                     (fun k => (7 * k + 3)%nat) 4 "medium")
              MEDIUM_PROMPTS eq_refl) as (prompts & Hp & Hlen & _).
  exists prompts. split; [exact Hp | exact Hlen].
Defined.

(** ** The endpoint *)

Lemma rstrip_char_app (c : ascii) (s : string) :
  rstrip_char c (s ++ String c "") = rstrip_char c s.
Proof.
  induction s as [|x s IH]; simpl.
  - now rewrite Ascii.eqb_refl.
  - now rewrite IH.
Qed.

Lemma rstrip_char_no_trailing (c : ascii) (s : string) :
  forall s', rstrip_char c s <> (s' ++ String c "")%string.
Proof.
  induction s as [|x s IH]; simpl; intros s' H.
  - destruct s'; discriminate H.
  - destruct (rstrip_char c s) as [|y kept] eqn:E.
    + destruct (Ascii.eqb_spec x c) as [->|Hx].
      * destruct s'; discriminate H.
      * destruct s' as [|z s']; simpl in H.
        -- inversion H. contradiction.
        -- inversion H as [[Hz Hs']]. destruct s'; discriminate Hs'.
    + destruct s' as [|z s']; simpl in H.
      * discriminate H.
      * inversion H as [[Hz Hs']]. exact (IH s' Hs').
Qed.

Lemma rstrip_char_fixed (c : ascii) (s : string) :
  (forall s', s <> (s' ++ String c "")%string) -> rstrip_char c s = s.
Proof.
  induction s as [|x s IH]; simpl; intros H; [reflexivity|].
  assert (Hs : forall s', s <> (s' ++ String c "")%string).
  { intros s' E. apply (H (String x s')). simpl. now rewrite E. }
  rewrite (IH Hs). destruct s as [|y s]; [|reflexivity].
  destruct (Ascii.eqb_spec x c) as [->|_]; [|reflexivity].
  exfalso. now apply (H ""%string).
Qed.

(** X14: trailing slashes of the base URL do not matter: the endpoint of
    [base ++ "/"] is the endpoint of [base]; the part before
    [/v1/chat/completions] never ends with a slash, and a base URL that
    does not end with a slash is used as it is. *)
Theorem endpoint_ignores_trailing_slashes (base_url : string) :
  endpoint (base_url ++ "/") = endpoint base_url
  /\ (forall s, rstrip_char "/" base_url <> (s ++ "/")%string)
  /\ ((forall s, base_url <> (s ++ "/")%string) ->
      endpoint base_url = (base_url ++ "/v1/chat/completions")%string).
Proof.
  unfold endpoint. split; [|split].
  - now rewrite rstrip_char_app.
  - apply rstrip_char_no_trailing.
  - intros H. now rewrite (rstrip_char_fixed _ _ H).
Qed.

Lemma endpoint_ignores_trailing_slashes_witness :
  endpoint "http://localhost:8000"
  = "http://localhost:8000/v1/chat/completions"%string.
Proof.
  apply (proj2 (proj2 (endpoint_ignores_trailing_slashes "http://localhost:8000"))).
  intros s H.
  do 21 (destruct s as [|? s]; [discriminate H|]).
  destruct s; discriminate H.
Defined.

(** ** The RAM monitor *)

Local Open Scope Q_scope.

Lemma last_of_cons (rest : list Q) :
  forall x d, last (x :: rest) d = last rest x.
Proof.
  induction rest as [|y rest IH]; intros x d.
  - reflexivity.
  - change (last (x :: y :: rest) d) with (last (y :: rest) d).
    now rewrite !IH.
Qed.

Lemma last_is_last (rest : list Q) :
  forall x, exists front, x :: rest = (front ++ [last rest x])%list.
Proof.
  intros x. exists (removelast (x :: rest)).
  rewrite <- (last_of_cons rest x 0).
  apply app_removelast_last. discriminate.
Qed.

(** The summary of a monitor that has samples. *)
Lemma summary_of_samples (m : RamMonitor) :
  samples m <> [] ->
  exists first peak avg final front,
    monitor_summary m
    = inr [("total_gb"%string, _total_gb m); ("start_gb"%string, first);
           ("peak_gb"%string, peak); ("avg_gb"%string, avg);
           ("end_gb"%string, final)]
    /\ nth_error (samples m) 0 = Some first
    /\ samples m = (front ++ [final])%list
    /\ In peak (samples m)
    /\ (forall x, In x (samples m) -> x <= peak)
    /\ avg * inject_Z (Z.of_nat (length (samples m))) == fsum (samples m)
    /\ avg <= peak.
Proof.
  intros Hne. unfold monitor_summary.
  destruct (samples m) as [|x rest] eqn:E; [congruence|].
  destruct (max_from_spec rest x) as [Hin_hi Hall_hi].
  destruct (min_from_spec rest x) as [_ Hall_lo].
  rewrite Forall_forall in Hall_hi, Hall_lo.
  destruct (last_is_last rest x) as [front Hfront].
  assert (Hpos : 0 < inject_Z (Z.of_nat (length (x :: rest)))).
  { change 0 with (inject_Z 0). rewrite <- Zlt_Qlt. simpl length. lia. }
  unfold fdiv_int.
  destruct (Z.eqb_spec (Z.of_nat (length (x :: rest))) 0) as [E0|_];
    [simpl length in E0; lia|].
  cbn [py_item nth_error py_max py_last bind].
  exists x, (max_from x rest),
    (fsum (x :: rest) / inject_Z (Z.of_nat (length (x :: rest)))),
    (last rest x), front.
  split; [reflexivity|]. split; [reflexivity|]. split; [exact Hfront|].
  split; [exact Hin_hi|]. split; [exact Hall_hi|].
  split.
  - field. intros H0. rewrite H0 in Hpos. now apply Qlt_irrefl in Hpos.
  - apply Qle_shift_div_r; [exact Hpos|].
    destruct (fsum_bounds (min_from x rest) (max_from x rest) (x :: rest))
      as [_ Bhi].
    { apply Forall_forall. intros y Hy.
      split; [now apply Hall_lo | now apply Hall_hi]. }
    rewrite Qmult_comm. exact Bhi.
Qed.



(** X16: a poll of a running monitor that already has samples keeps
    [total_gb] and [start_gb], makes the new reading the [end_gb], and
    never lowers [peak_gb]; once [stop()] was called the loop is left and
    the summary is what it was. *)
Theorem polling_keeps_start_and_never_lowers_peak
    (used : Z) (m m' : RamMonitor) :
  samples m <> [] ->
  monitor_poll used m = Some m' ->
  (exists d d' peak peak',
     monitor_summary m = inr d /\ monitor_summary m' = inr d'
     /\ item_of "total_gb" d' = item_of "total_gb" d
     /\ item_of "start_gb" d' = item_of "start_gb" d
     /\ item_of "end_gb" d' = Some (inject_Z used / inject_Z GIB)
     /\ item_of "peak_gb" d = Some peak
     /\ item_of "peak_gb" d' = Some peak'
     /\ peak <= peak')
  /\ monitor_poll used (monitor_stop m) = None
  /\ monitor_summary (monitor_stop m) = monitor_summary m.
Proof.
  intros Hne Hpoll. split; [|split; reflexivity].
  unfold monitor_poll in Hpoll.
  destruct (_stop m); [discriminate Hpoll|]. inversion Hpoll; subst m'; clear Hpoll.
  set (m' := {| interval := interval m;
                samples := (samples m ++ [inject_Z used / inject_Z GIB])%list;
                _stop := false; _total_gb := _total_gb m |}).
  destruct (summary_of_samples m Hne)
    as (first & peak & avg & final & front & Hs & Hfirst & _ & Hin & _).
  assert (Hne' : samples m' <> []).
  { simpl. destruct (samples m); [congruence | discriminate]. }
  destruct (summary_of_samples m' Hne')
    as (first' & peak' & avg' & final' & front' & Hs' & Hfirst' & Hlast' & _
        & Hall' & _).
  exists [("total_gb"%string, _total_gb m); ("start_gb"%string, first);
          ("peak_gb"%string, peak); ("avg_gb"%string, avg);
          ("end_gb"%string, final)],
         [("total_gb"%string, _total_gb m'); ("start_gb"%string, first');
          ("peak_gb"%string, peak'); ("avg_gb"%string, avg');
          ("end_gb"%string, final')], peak, peak'.
  split; [exact Hs|]. split; [exact Hs'|].
  split; [reflexivity|].
  assert (Efirst : first' = first).
  { simpl in Hfirst'. destruct (samples m) as [|x rest]; [congruence|].
    simpl in Hfirst, Hfirst'. congruence. }
  assert (Efinal : final' = inject_Z used / inject_Z GIB).
  { simpl in Hlast'. apply app_inj_tail in Hlast'. now destruct Hlast'. }
  split; [simpl; now rewrite Efirst|].
  split; [simpl; now rewrite Efinal|].
  split; [reflexivity|]. split; [reflexivity|].
  apply Hall'. simpl. apply in_or_app. now left.
Qed.

Lemma polling_keeps_start_and_never_lowers_peak_witness :
  samples (mkMonitor (1 # 2) [3; 5] false 16) <> []
  /\ exists m',
       monitor_poll (4 * GIB) (mkMonitor (1 # 2) [3; 5] false 16) = Some m'
       /\ monitor_poll (4 * GIB) (monitor_stop (mkMonitor (1 # 2) [3; 5] false 16))
          = None.
Proof.
  assert (H : samples (mkMonitor (1 # 2) [3; 5] false 16) <> [])
    by discriminate.
  split; [exact H|].
  eexists. split; [reflexivity|].
  exact (proj1 (proj2 (polling_keeps_start_and_never_lowers_peak (4 * GIB)
                         (mkMonitor (1 # 2) [3; 5] false 16) _ H eq_refl))).
Defined.

(* ================================================================== *)
(** * Further properties of the admission gate and of [run_bench] *)

Local Close Scope Q_scope.
Local Open Scope Z_scope.

(** X17: at every state the event loop can reach, the counter of the
    semaphore is the number of free slots ([parallel] minus the tasks in
    flight, never negative), and a waiting task passes [async with sem]
    exactly when fewer than [parallel] tasks are in flight: a free slot is
    never refused and a full gate admits nobody. *)
Theorem gate_admits_exactly_when_a_slot_is_free
    (loads : string -> option pyval) (stream : bool) (parallel : Z)
    (jobs : list job) (s0 s : pool) (trace : list event) :
  start parallel jobs = inr s0 ->
  run loads stream s0 trace = Some s ->
  0 <= sem s
  /\ sem s = parallel - Z.of_nat (length (in_flight s))
  /\ forall i,
       (exists s', step loads stream s (Acquire i) = Some s')
       <-> ((i < length (waiting s))%nat
            /\ Z.of_nat (length (in_flight s)) < parallel).
Proof.
  intros Hstart Hrun.
  destruct (start_invariant loads stream parallel jobs s0 Hstart) as [Hinv0 _].
  destruct (run_invariant loads stream parallel jobs trace s0 s Hinv0 Hrun)
    as [(Hsem & Hsum & _) _].
  split; [exact Hsem|]. split; [lia|].
  intros i. simpl step. split.
  - intros (s' & Hs').
    destruct (nth_error (waiting s) i) as [j|] eqn:Hj; [|discriminate Hs'].
    destruct (Z.ltb_spec 0 (sem s)); [|discriminate Hs'].
    split; [|lia]. apply nth_error_Some. congruence.
  - intros [Hi Hfree].
    destruct (nth_error (waiting s) i) as [j|] eqn:Hj.
    + destruct (Z.ltb_spec 0 (sem s)); [now eexists | lia].
    + apply nth_error_None in Hj. lia.
Qed.

Lemma gate_admits_exactly_when_a_slot_is_free_witness :
  exists s0 s,
    start 1 [mkJob "a" hello_world; mkJob "b" timeout_world] = inr s0
    /\ run sample_loads true s0 [Acquire 0] = Some s
    /\ sem s = 1 - Z.of_nat (length (in_flight s))
    /\ step sample_loads true s (Acquire 0) = None.
Proof.
  do 2 eexists. split; [reflexivity|]. split; [reflexivity|].
  split; [|reflexivity].
  exact (proj1 (proj2 (gate_admits_exactly_when_a_slot_is_free sample_loads true 1
                         [mkJob "a" hello_world; mkJob "b" timeout_world]
                         _ _ [Acquire 0] eq_refl eq_refl))).
Defined.

Lemma step_appends (loads : string -> option pyval) (stream : bool)
    (s s' : pool) (ev : event) :
  step loads stream s ev = Some s' ->
  is_prefix (results s) (results s')
  /\ is_prefix (results s ++ completed s)%list (results s' ++ completed s')%list.
Proof.
  unfold is_prefix. destruct ev as [i | i |]; simpl; intros H.
  - destruct (nth_error (waiting s) i); [|discriminate H].
    destruct (0 <? sem s); [|discriminate H].
    inversion H; subst s'; simpl.
    split; exists []; now rewrite app_nil_r.
  - destruct (nth_error (in_flight s) i) as [j|]; [|discriminate H].
    inversion H; subst s'; simpl. split.
    + exists []. now rewrite app_nil_r.
    + exists [bounded loads stream j]. now rewrite app_assoc.
  - destruct (completed s) as [|r rest]; [discriminate H|].
    inversion H; subst s'; simpl. split.
    + now exists [r].
    + exists []. rewrite app_nil_r, <- app_assoc. reflexivity.
Qed.

Lemma is_prefix_trans {A : Type} (a b c : list A) :
  is_prefix a b -> is_prefix b c -> is_prefix a c.
Proof.
  intros [x ->] [y ->]. exists (x ++ y)%list. now rewrite app_assoc.
Qed.

(** X18: the collection of results is only appended to: along any run of
    the event loop the list [results] of an earlier state is the beginning
    of the list of a later one, and the results stay in the order in which
    the tasks finished (finished-but-not-yet-handed-over results follow the
    handed-over ones, in order). *)
Theorem results_are_only_appended
    (loads : string -> option pyval) (stream : bool) (trace : list event) :
  forall s s',
    run loads stream s trace = Some s' ->
    is_prefix (results s) (results s')
    /\ is_prefix (results s ++ completed s)%list (results s' ++ completed s')%list.
Proof.
  induction trace as [|ev trace IH]; intros s s' H; simpl in H.
  - inversion H; subst. split; exists []; now rewrite app_nil_r.
  - destruct (step loads stream s ev) as [s1|] eqn:Hstep; [|discriminate H].
    destruct (step_appends _ _ _ _ _ Hstep) as [P1 P2].
    destruct (IH _ _ H) as [Q1 Q2].
    split; eapply is_prefix_trans; eassumption.
Qed.

Lemma results_are_only_appended_witness :
  exists s0 s1 s2,
    start 2 [mkJob "a" hello_world; mkJob "b" timeout_world] = inr s0
    /\ run sample_loads true s0 [Acquire 1; Finish 0; Yield] = Some s1
    /\ run sample_loads true s1 [Acquire 0; Finish 0; Yield] = Some s2
    /\ is_prefix (results s1) (results s2).
Proof.
  do 3 eexists. split; [reflexivity|]. split; [reflexivity|].
  split; [reflexivity|].
  refine (proj1 (results_are_only_appended sample_loads true
                   [Acquire 0; Finish 0; Yield] _ _ _)).
  reflexivity.
Defined.





(* ================================================================== *)
(** * The framing of a [data:] line *)

Lemma rstrip_app (a b : string) :
  rstrip (a ++ b)
  = match rstrip b with
    | EmptyString => rstrip a
    | String c kept => (a ++ String c kept)%string
    end.
Proof.
  induction a as [|x a IH]; simpl.
  - now destruct (rstrip b).
  - rewrite IH. destruct (rstrip b) as [|c kept]; [reflexivity|].
    now destruct a.
Qed.

Lemma rstrip_idempotent (s : string) : rstrip (rstrip s) = rstrip s.
Proof.
  induction s as [|c s IH]; simpl; [reflexivity|].
  destruct (rstrip s) as [|d kept] eqn:E.
  - destruct (is_space c) eqn:Hc; simpl; [reflexivity | now rewrite Hc].
  - change (rstrip (String c (String d kept)))
      with (match rstrip (String d kept) with
            | EmptyString => if is_space c then EmptyString else String c EmptyString
            | k => String c k
            end).
    now rewrite IH.
Qed.

Lemma lstrip_spaces (ws s : string) :
  all_space ws = true -> lstrip (ws ++ s) = lstrip s.
Proof.
  induction ws as [|c ws IH]; simpl; intros H; [reflexivity|].
  apply andb_true_iff in H. destruct H as [Hc Hws].
  rewrite Hc. now apply IH.
Qed.

(** X20: white space around a line and after the [data:] prefix does not
    count: a line made of white space, [data:] and any text has the
    stripped text as its payload, so [data:{...}] and [  data:   {...}]
    followed by a line end are handled alike by the loop. *)
Theorem data_prefix_tolerates_white_space (ws rest : string) :
  all_space ws = true ->
  payload_of (ws ++ "data:" ++ rest) = Some (strip rest)
  /\ forall loads now s,
       on_line loads now (ws ++ "data:" ++ rest) s
       = on_line loads now ("data:" ++ rest) s.
Proof.
  intros Hws.
  assert (P : forall w, all_space w = true ->
                payload_of (w ++ "data:" ++ rest) = Some (strip rest)).
  { intros w Hw. unfold payload_of.
    assert (E : strip (w ++ "data:" ++ rest) = ("data:" ++ rstrip rest)%string).
    { unfold strip.
      assert (R : rstrip ("data:" ++ rest) = ("data:" ++ rstrip rest)%string).
      { rewrite rstrip_app. destruct (rstrip rest); reflexivity. }
      rewrite rstrip_app, R. simpl append. cbv iota.
      rewrite (lstrip_spaces w _ Hw). reflexivity. }
    rewrite E. unfold startswith. simpl. unfold strip.
    replace (prefix "" (rstrip rest)) with true
      by (now destruct (rstrip rest)).
    now rewrite rstrip_idempotent. }
  split; [exact (P ws Hws)|].
  intros loads now s. rewrite !on_line_cases.
  pose proof (P ""%string eq_refl) as P0.
  change ("" ++ "data:" ++ rest)%string with ("data:" ++ rest)%string in P0.
  now rewrite (P ws Hws), P0.
Qed.

Lemma data_prefix_tolerates_white_space_witness :
  all_space "  " = true
  /\ payload_of ("  " ++ "data:" ++ "   [DONE] ") = Some "[DONE]"%string.
Proof.
  split; [reflexivity|].
  exact (proj1 (data_prefix_tolerates_white_space "  " "   [DONE] " eq_refl)).
Defined.
